(** * Mini-Trello: ordering keys and realtime relay

    A shallow embedding of the parts of the kanban application that decide
    how cards and lists are ordered and how board events are relayed:

    - [backend/src/routes/cards.ts]: POST /cards, GET and PUT /cards/:id and
      PUT /cards/:id/move;
    - the lists router: POST /lists, PUT /lists/:id, the handler written
      for PUT /lists/reorder, and the order in which the router tries them;
    - the socket handlers ([setupSocketHandlers]): join-board, leave-board
      and the five relayed events;
    - [frontend/src/pages/Board.tsx]: [handleDragEnd] and the socket event
      listeners of the board page.

    Positions are JavaScript numbers in the source: IEEE 754 doubles.  A
    finite double is a rational, and positions are modelled by the rational
    they denote ([Q]); comparison is then comparison of rationals, and the
    one addition the code performs on positions ([position + 1000]) is the
    rational sum rounded to the nearest double ([js_add]).  The other keys
    the code computes are [(index + 1) * 1000] for an array index, an
    integer far below 2^53 and so exact.  Strings are sequences of bytes,
    UTF-8 encoded as the literals of this file are.

    The Prisma tables are finite maps from row id to row.  A Prisma call is
    a computation over the database that either returns or throws; what has
    been written before a throw stays written (every call is its own
    auto-committed statement, the code opens no transaction). *)

From Stdlib Require Import Ascii QArith Qminmax Qabs Lqa.
From Stdlib Require Qcanon.
From stdpp Require Import gmap strings list fin_maps.

Local Open Scope string_scope.
Local Open Scope list_scope.

(** ** Rows *)

Record User := mkUser {
  user_id : string;
  user_name : string;
  user_email : string
}.

Record Board := mkBoard {
  board_id : string;
  board_ownerId : string;
  board_members : list string   (* userId of each BoardMember row *)
}.

Record BList := mkBList {
  list_id : string;
  list_title : string;
  list_boardId : string;
  list_position : Q
}.

Record Card := mkCard {
  card_id : string;
  card_title : string;
  card_listId : string;
  card_position : Q
}.

Record Activity := mkActivity {
  act_type : string;
  act_cardId : string;
  act_boardId : string;
  act_userId : string
}.

Record Db := mkDb {
  db_up : bool;                       (* false: every Prisma call throws *)
  db_boards : gmap string Board;
  db_lists : gmap string BList;
  db_cards : gmap string Card;
  db_activities : list Activity
}.

Definition set_lists (f : gmap string BList → gmap string BList) (d : Db) : Db :=
  mkDb (db_up d) (db_boards d) (f (db_lists d)) (db_cards d) (db_activities d).
Definition set_cards (f : gmap string Card → gmap string Card) (d : Db) : Db :=
  mkDb (db_up d) (db_boards d) (db_lists d) (f (db_cards d)) (db_activities d).
Definition set_activities (f : list Activity → list Activity) (d : Db) : Db :=
  mkDb (db_up d) (db_boards d) (db_lists d) (db_cards d) (f (db_activities d)).

(** ** Prisma calls: state and exceptions *)

Inductive Result (A : Type) : Type :=
| Ok (a : A)
| Throw (msg : string).
Arguments Ok {A} a.
Arguments Throw {A} msg.

Definition Prisma (A : Type) : Type := Db → Db * Result A.

Definition ret {A} (a : A) : Prisma A := λ d, (d, Ok a).
Definition throw {A} (msg : string) : Prisma A := λ d, (d, Throw msg).
Definition bind {A B} (m : Prisma A) (k : A → Prisma B) : Prisma B :=
  λ d, match m d with
       | (d', Ok a) => k a d'
       | (d', Throw e) => (d', Throw e)
       end.
(** [try { m } catch (error) { h }] *)
Definition try_catch {A} (m : Prisma A) (h : string → Prisma A) : Prisma A :=
  λ d, match m d with
       | (d', Ok a) => (d', Ok a)
       | (d', Throw e) => h e d'
       end.

Declare Scope prisma_scope.
Delimit Scope prisma_scope with prisma.
Notation "'let*' x ':=' m 'in' k" := (bind m (λ x, k))
  (at level 10, x pattern, m at level 100, k at level 200) : prisma_scope.
Local Open Scope prisma_scope.

(** Every call first needs the connection. *)
Definition connected {A} (m : Prisma A) : Prisma A :=
  λ d, if db_up d then m d else (d, Throw "PrismaClientKnownRequestError").

(** [Promise.all(ps)] over calls that have all been started already (the
    array is built by [map] before [Promise.all] is awaited): every call
    runs to its end; the result is the first rejection, if any. *)
Fixpoint promise_all {A} (ms : list (Prisma A)) : Prisma (list A) :=
  match ms with
  | [] => ret []
  | m :: rest =>
      λ d, match m d with
           | (d1, r) =>
               match promise_all rest d1 with
               | (d2, rs) =>
                   (d2, match r, rs with
                        | Ok a, Ok l => Ok (a :: l)
                        | Throw e, _ => Throw e
                        | Ok _, Throw e => Throw e
                        end)
               end
           end
  end.

(** ** Board access: the [OR: [{ownerId}, {members: {some: {userId}}}]] filter *)

Definition has_access (uid : string) (b : Board) : bool :=
  bool_decide (board_ownerId b = uid) || bool_decide (uid ∈ board_members b).

Definition board_access (d : Db) (uid bid : string) : option Board :=
  match db_boards d !! bid with
  | Some b => if has_access uid b then Some b else None
  | None => None
  end.

(** [prisma.board.findFirst({where: {id, OR: [...]}})] *)
Definition board_findFirst (uid bid : string) : Prisma (option Board) :=
  connected (λ d, (d, Ok (board_access d uid bid))).

Definition list_access (d : Db) (uid lid : string) : option BList :=
  match db_lists d !! lid with
  | Some l => match board_access d uid (list_boardId l) with
              | Some _ => Some l
              | None => None
              end
  | None => None
  end.

(** [prisma.list.findFirst({where: {id, board: {OR: [...]}}})] *)
Definition list_findFirst (uid lid : string) : Prisma (option BList) :=
  connected (λ d, (d, Ok (list_access d uid lid))).

Definition card_access (d : Db) (uid cid : string) : option (Card * BList) :=
  match db_cards d !! cid with
  | Some c => match list_access d uid (card_listId c) with
              | Some l => Some (c, l)
              | None => None
              end
  | None => None
  end.

(** [prisma.card.findFirst({where: {id, list: {board: {OR: [...]}}},
    include: {list: true}})] *)
Definition card_findFirst (uid cid : string) : Prisma (option (Card * BList)) :=
  connected (λ d, (d, Ok (card_access d uid cid))).

(** ** Reads and writes used by the routes *)

(** The row a [findFirst] with [orderBy: {position: 'desc'}] returns: one of
    largest position (which one among equal positions is the engine's
    choice; here the one met first). *)
Definition last_by {A} (pos : A → Q) (rows : list A) : option A :=
  foldr (λ r acc, match acc with
                  | Some m => if Qle_bool (pos r) (pos m) then Some m else Some r
                  | None => Some r
                  end) None rows.

Definition cards_of (d : Db) (lid : string) : list Card :=
  filter (λ c, card_listId c = lid) (map_to_list (db_cards d)).*2.

Definition lists_of (d : Db) (bid : string) : list BList :=
  filter (λ l, list_boardId l = bid) (map_to_list (db_lists d)).*2.

(** [prisma.card.findFirst({where: {listId}, orderBy: {position: 'desc'}})] *)
Definition card_findLast (lid : string) : Prisma (option Card) :=
  connected (λ d, (d, Ok (last_by card_position (cards_of d lid)))).

(** [prisma.list.findFirst({where: {boardId}, orderBy: {position: 'desc'}})] *)
Definition list_findLast (bid : string) : Prisma (option BList) :=
  connected (λ d, (d, Ok (last_by list_position (lists_of d bid)))).

(** [prisma.card.create]: the id is generated by the client library; a
    generated id that is taken violates the primary key. *)
Definition card_create (c : Card) : Prisma Card :=
  connected (λ d, match db_cards d !! card_id c with
                  | Some _ => (d, Throw "Unique constraint failed")
                  | None => (set_cards <[card_id c := c]> d, Ok c)
                  end).

Definition list_create (l : BList) : Prisma BList :=
  connected (λ d, match db_lists d !! list_id l with
                  | Some _ => (d, Throw "Unique constraint failed")
                  | None => (set_lists <[list_id l := l]> d, Ok l)
                  end).

(** [prisma.card.update({where: {id}, data: {listId, position}})]: throws
    when no row has the id. *)
Definition card_update (cid lid : string) (pos : Q) : Prisma Card :=
  connected (λ d, match db_cards d !! cid with
                  | Some c =>
                      let c' := mkCard (card_id c) (card_title c) lid pos in
                      (set_cards <[cid := c']> d, Ok c')
                  | None => (d, Throw "Record to update not found")
                  end).

(** [prisma.list.update({where: {id}, data: {position}})] *)
Definition list_update (lid : string) (pos : Q) : Prisma BList :=
  connected (λ d, match db_lists d !! lid with
                  | Some l =>
                      let l' := mkBList (list_id l) (list_title l) (list_boardId l) pos in
                      (set_lists <[lid := l']> d, Ok l')
                  | None => (d, Throw "Record to update not found")
                  end).

(** [prisma.activity.create] *)
Definition activity_create (a : Activity) : Prisma unit :=
  connected (λ d, (set_activities (λ l, (l ++ [a])%list) d, Ok tt)).

(** ** Requests and responses *)

Inductive Payload :=
| PCard (c : Card)
| PList (l : BList)
| PMessage (m : string)
| PError (e : string).

Record Response := Json { status : nat; payload : Payload }.

(** ** Strings: the [trim()] sanitizer

    [trim()] of validator.js removes the leading and the trailing white
    space of the value: what the regular expression class [\s] matches,
    that is TAB, LF, VT, FF, CR, SPACE, U+00A0, U+1680, U+2000 to U+200A,
    U+2028, U+2029, U+202F, U+205F, U+3000 and U+FEFF.  Each is given here
    by its UTF-8 bytes. *)
Definition bytes (codes : list nat) : string :=
  String.string_of_list_ascii (Ascii.ascii_of_nat <$> codes).

Definition js_whitespace : list string :=
  bytes <$> [ [9]; [10]; [11]; [12]; [13]; [32];
              [194; 160];                                    (* U+00A0 *)
              [225; 154; 128];                               (* U+1680 *)
              [226; 128; 128]; [226; 128; 129]; [226; 128; 130];
              [226; 128; 131]; [226; 128; 132]; [226; 128; 133];
              [226; 128; 134]; [226; 128; 135]; [226; 128; 136];
              [226; 128; 137]; [226; 128; 138];              (* U+2000 .. U+200A *)
              [226; 128; 168]; [226; 128; 169];              (* U+2028, U+2029 *)
              [226; 128; 175];                               (* U+202F *)
              [226; 129; 159];                               (* U+205F *)
              [227; 128; 128];                               (* U+3000 *)
              [239; 187; 191] ].                             (* U+FEFF *)

(** [drop_prefix p s]: [s] without its prefix [p], when it starts with it. *)
Fixpoint drop_prefix (p s : string) : option string :=
  match p, s with
  | EmptyString, _ => Some s
  | String a p', String b s' => if Ascii.eqb a b then drop_prefix p' s' else None
  | String _ _, EmptyString => None
  end.

(** One character of the class [chars] taken from the front of [s]. *)
Definition drop_one (chars : list string) (s : string) : option string :=
  foldr (λ c acc, match drop_prefix c s with Some r => Some r | None => acc end)
        None chars.

Fixpoint drop_while (fuel : nat) (chars : list string) (s : string) : string :=
  match fuel with
  | O => s
  | S fuel' => match drop_one chars s with
               | Some r => drop_while fuel' chars r
               | None => s
               end
  end.

Definition str_rev (s : string) : string :=
  String.string_of_list_ascii (rev (String.list_ascii_of_string s)).

(** [str.replace(/^\s+/g, '')] *)
Definition trim_start (s : string) : string :=
  drop_while (String.length s) js_whitespace s.

(** The loop of [rtrim]: characters are dropped from the end while they are
    white space. *)
Definition trim_end (s : string) : string :=
  str_rev (drop_while (String.length s) (str_rev <$> js_whitespace) (str_rev s)).

(** [body('title').trim().isLength({min: 1})]: the sanitizer replaces the
    title by its trimmed form, the validator wants it non-empty. *)
Definition trim (s : string) : string := trim_end (trim_start s).

(** ** Numbers

    [round64 q] is the double nearest to the rational [q], ties going to the
    even significand (the rounding of every arithmetic operation of
    JavaScript).  With [2^e <= |q| < 2^(e+1)] the doubles around [q] are
    the multiples of [2^k], [k = max e (-1022) - 52]; [q] is rounded to
    the nearest of them.  The result is in lowest terms.  Overflow to
    [Infinity], from about 1.8e308 on, is not modelled: the validators of
    the routes keep every position a request carries below 1e21. *)
Definition pow2 (k : Z) : Z := (2 ^ Z.max 0 k)%Z.

(** The integer nearest to [a / b], for [0 <= a] and [0 < b]. *)
Definition round_half_even (a b : Z) : Z :=
  let f := (a / b)%Z in
  match (2 * (a mod b) ?= b)%Z with
  | Lt => f
  | Gt => (f + 1)%Z
  | Eq => if Z.even f then f else (f + 1)%Z
  end.

Definition round64 (q : Q) : Q :=
  let n := Z.abs (Qnum (Qred q)) in
  let d := Zpos (Qden (Qred q)) in
  if bool_decide (n = 0%Z) then 0%Q else
  let e0 := (Z.log2 n - Z.log2 d)%Z in
  let e := if bool_decide (d * pow2 e0 ≤ n * pow2 (- e0))%Z then e0 else (e0 - 1)%Z in
  let k := (Z.max e (-1022) - 52)%Z in
  let m := round_half_even (n * pow2 (- k)) (d * pow2 k) in
  Qred (inject_Z (Z.sgn (Qnum (Qred q)) * m * pow2 k) / inject_Z (pow2 (- k))).

(** [x + y] on numbers. *)
Definition js_add (x y : Q) : Q := round64 (x + y).

(** [isNumeric()] applied to a number: express-validator tests the string
    [String(value)] against [^[+-]?([0-9]*[.])?[0-9]+$].  [String] writes a
    number in plain decimal digits when it is 0 or its magnitude is at
    least 1e-6 (the double of that literal) and below 1e21; every other
    number is written with an exponent ([1e+21], [1e-7]) and fails the
    test. *)
Definition isNumeric (x : Q) : bool :=
  Qeq_bool x 0
  || (Qle_bool (round64 (1 # 1000000)) (Qabs x)
      && negb (Qle_bool (inject_Z (10 ^ 21)) (Qabs x))).

(** The step between generated keys. *)
Definition STEP : Q := 1000%Q.

(** The key of the element at 0-based [index] of a renumbered array:
    [(index + 1) * 1000]. *)
Definition index_key (index : nat) : Q := inject_Z ((Z.of_nat index + 1) * 1000).

(** [body('position').optional().isNumeric()] *)
Definition optional_isNumeric (position : option Q) : bool :=
  match position with
  | Some p => isNumeric p
  | None => true
  end.

(** ** POST /cards

    The request bodies are those that carry a string [title], a string
    [listId], possibly a number [position], and no [description] and no
    [dueDate]. *)

Record CardBody := mkCardBody {
  cb_title : string;
  cb_listId : string;
  cb_position : option Q        (* [undefined] when the field is absent *)
}.

Definition post_card (uid newId : string) (body : CardBody) : Prisma Response :=
  try_catch
    (let title := trim (cb_title body) in
     if bool_decide (title = "") || negb (optional_isNumeric (cb_position body))
     then ret (Json 400 (PError "Validation failed"))
     else
       let* list := list_findFirst uid (cb_listId body) in
       match list with
       | None => ret (Json 403 (PError "Access denied to list"))
       | Some l =>
           let* cardPosition :=
             match cb_position body with
             | Some p => ret p
             | None =>
                 let* lastCard := card_findLast (cb_listId body) in
                 ret (match lastCard with
                      | Some c => js_add (card_position c) 1000
                      | None => 1000%Q
                      end)
             end in
           let* card := card_create (mkCard newId title (cb_listId body) cardPosition) in
           let* _ := activity_create
                       (mkActivity "card_created" (card_id card) (list_boardId l) uid) in
           ret (Json 201 (PCard card))
       end)
    (λ _, ret (Json 500 (PError "Failed to create card"))).

(** ** PUT /cards/:id/move *)

Record MoveBody := mkMoveBody {
  mb_listId : string;
  mb_position : Q
}.

Definition put_card_move (uid cid : string) (body : MoveBody) : Prisma Response :=
  try_catch
    (if negb (isNumeric (mb_position body))
     then ret (Json 400 (PError "Validation failed"))
     else
     let* card := card_findFirst uid cid in
     let* targetList := list_findFirst uid (mb_listId body) in
     match card, targetList with
     | Some (c, _), Some tl =>
         let* updatedCard := card_update cid (mb_listId body) (mb_position body) in
         let* _ := activity_create
                     (mkActivity "card_moved" (card_id updatedCard) (list_boardId tl) uid) in
         ret (Json 200 (PCard updatedCard))
     | _, _ =>
         ret (Json 404 (PError "Card or target list not found or insufficient permissions"))
     end)
    (λ _, ret (Json 500 (PError "Failed to move card"))).

(** ** POST /lists *)

Record ListBody := mkListBody {
  lb_title : string;
  lb_boardId : string;
  lb_position : option Q
}.

Definition post_list (uid newId : string) (body : ListBody) : Prisma Response :=
  try_catch
    (let title := trim (lb_title body) in
     if bool_decide (title = "") || negb (optional_isNumeric (lb_position body))
     then ret (Json 400 (PError "Validation failed"))
     else
       let* board := board_findFirst uid (lb_boardId body) in
       match board with
       | None => ret (Json 403 (PError "Access denied to board"))
       | Some _ =>
           let* listPosition :=
             match lb_position body with
             | Some p => ret p
             | None =>
                 let* lastList := list_findLast (lb_boardId body) in
                 ret (match lastList with
                      | Some l => js_add (list_position l) 1000
                      | None => 1000%Q
                      end)
             end in
           let* list := list_create (mkBList newId title (lb_boardId body) listPosition) in
           ret (Json 201 (PList list))
       end)
    (λ _, ret (Json 500 (PError "Failed to create list"))).

(** ** GET /cards/:id, PUT /cards/:id, PUT /lists/:id

    Of a card, the tables here keep the title, the list and the position;
    the description and the due date that PUT /cards/:id can also change are
    not kept, and the requests are those that carry neither. *)

Definition get_card (uid cid : string) : Prisma Response :=
  try_catch
    (let* card := card_findFirst uid cid in
     match card with
     | None => ret (Json 404 (PError "Card not found"))
     | Some (c, _) => ret (Json 200 (PCard c))
     end)
    (λ _, ret (Json 500 (PError "Failed to fetch card"))).

(** [prisma.card.update({where: {id}, data: updateData})] with an optional
    title in [updateData]. *)
Definition card_update_data (cid : string) (title : option string) : Prisma Card :=
  connected (λ d, match db_cards d !! cid with
                  | Some c =>
                      let c' := mkCard (card_id c) (default (card_title c) title)
                                       (card_listId c) (card_position c) in
                      (set_cards <[cid := c']> d, Ok c')
                  | None => (d, Throw "Record to update not found")
                  end).

(** [body('title').optional().trim().isLength({min: 1})]: an absent title
    passes; a title that is sent is trimmed and must not be empty. *)
Definition put_card (uid cid : string) (title : option string) : Prisma Response :=
  try_catch
    (let title := trim <$> title in
     if bool_decide (title = Some "") then ret (Json 400 (PError "Validation failed"))
     else
       let* card := card_findFirst uid cid in
       match card with
       | None => ret (Json 404 (PError "Card not found or insufficient permissions"))
       | Some (_, l) =>
           let* updatedCard := card_update_data cid title in
           let* _ := activity_create
                       (mkActivity "card_updated" (card_id updatedCard) (list_boardId l) uid) in
           ret (Json 200 (PCard updatedCard))
       end)
    (λ _, ret (Json 500 (PError "Failed to update card"))).

Record ListUpdateBody := mkListUpdateBody {
  lu_title : option string;
  lu_position : option Q
}.

(** [prisma.list.update({where: {id}, data: updateData})] with an optional
    title and an optional position in [updateData]. *)
Definition list_update_data (lid : string) (title : option string) (position : option Q)
  : Prisma BList :=
  connected (λ d, match db_lists d !! lid with
                  | Some l =>
                      let l' := mkBList (list_id l) (default (list_title l) title)
                                        (list_boardId l) (default (list_position l) position) in
                      (set_lists <[lid := l']> d, Ok l')
                  | None => (d, Throw "Record to update not found")
                  end).

(** [if (title) updateData.title = title]: the empty string is falsy, but
    an empty title has been refused by the validator before. *)
Definition put_list (uid lid : string) (body : ListUpdateBody) : Prisma Response :=
  try_catch
    (let title := trim <$> lu_title body in
     if bool_decide (title = Some "") || negb (optional_isNumeric (lu_position body))
     then ret (Json 400 (PError "Validation failed"))
     else
       let* list := list_findFirst uid lid in
       match list with
       | None => ret (Json 404 (PError "List not found or insufficient permissions"))
       | Some _ =>
           let* updatedList := list_update_data lid title (lu_position body) in
           ret (Json 200 (PList updatedList))
       end)
    (λ _, ret (Json 500 (PError "Failed to update list"))).

(** ** The handler registered for PUT /lists/reorder

    This is the handler as it is written.  The router does not hand it any
    request: see [lists_router_put] below. *)

Record ReorderBody := mkReorderBody {
  rb_listIds : list string;
  rb_boardId : string
}.

(** [listIds.map((listId, index) => prisma.list.update({where: {id: listId},
    data: {position: (index + 1) * 1000}}))] *)
Definition reorder_updates (listIds : list string) : list (Prisma BList) :=
  imap (λ index listId, list_update listId (index_key index)) listIds.

Definition put_lists_reorder (uid : string) (body : ReorderBody) : Prisma Response :=
  try_catch
    (match rb_listIds body with
     | [] => ret (Json 400 (PError "Validation failed"))     (* isArray({min: 1}) *)
     | _ =>
         let* board := board_findFirst uid (rb_boardId body) in
         match board with
         | None => ret (Json 403 (PError "Access denied to board"))
         | Some _ =>
             let* _ := promise_all (reorder_updates (rb_listIds body)) in
             ret (Json 200 (PMessage "Lists reordered successfully"))
         end
     end)
    (λ _, ret (Json 500 (PError "Failed to reorder lists"))).

(** ** The PUT routes of the lists router

    Express tries the routes of a router in the order in which they were
    registered; the first one whose method and path match handles the
    request, and a handler that answers ends the search.  The lists router
    registers [PUT '/:id'] before [PUT '/reorder'].  The pattern ['/:id']
    matches every path of one segment, ['/reorder'] included, with
    [req.params.id] the segment; its handler always answers.  So every
    [PUT /lists/<segment>] is handled by [put_list], which reads [title] and
    [position] of the body and nothing else. *)
Record ListsPutBody := mkListsPutBody {
  lp_title : option string;
  lp_position : option Q;
  lp_listIds : option (list string);
  lp_boardId : option string
}.

Definition lists_router_put (uid segment : string) (body : ListsPutBody) : Prisma Response :=
  put_list uid segment (mkListUpdateBody (lp_title body) (lp_position body)).

(** [api.put('/lists/reorder', {listIds, boardId})] of the board page. *)
Definition reorder_request (body : ReorderBody) : ListsPutBody :=
  mkListsPutBody None None (Some (rb_listIds body)) (Some (rb_boardId body)).

(** ** The socket server ([setupSocketHandlers])

    Only authenticated sockets reach the connection handler: the [io.use]
    middleware has set [socket.user] (and [socket.userId] to its id). *)

Record Socket := mkSocket {
  sock_id : string;
  sock_user : User
}.

Record Server := mkServer {
  srv_db : Db;
  srv_rooms : gmap string (gset string)   (* room name to socket ids *)
}.

Definition room_name (boardId : string) : string := "board-" +:+ boardId.

Definition room_members (rooms : gmap string (gset string)) (room : string) : gset string :=
  default ∅ (rooms !! room).

(** [socket.join(room)] *)
Definition socket_join (sid room : string) (rooms : gmap string (gset string))
  : gmap string (gset string) :=
  <[room := {[sid]} ∪ room_members rooms room]> rooms.

(** [socket.leave(room)]: the adapter drops a room that becomes empty. *)
Definition socket_leave (sid room : string) (rooms : gmap string (gset string))
  : gmap string (gset string) :=
  match rooms !! room with
  | Some m =>
      let m' := m ∖ {[sid]} in
      if decide (m' = ∅) then delete room rooms else <[room := m']> rooms
  | None => rooms
  end.

(** What a client sends with one of the five relayed events. *)
Inductive EventData :=
| CardUpdated (cardId updates : string)
| CardMoved (cardId fromListId toListId : string) (position : Q)
| CommentAdded (cardId comment : string)
| ListUpdated (listId updates : string)
| ListsReordered (listIds : list string).

Record ClientEvent := mkClientEvent {
  ce_boardId : string;
  ce_data : EventData
}.

Definition event_name (d : EventData) : string :=
  match d with
  | CardUpdated _ _ => "card-updated"
  | CardMoved _ _ _ _ => "card-moved"
  | CommentAdded _ _ => "comment-added"
  | ListUpdated _ _ => "list-updated"
  | ListsReordered _ => "lists-reordered"
  end.

(** What the server emits: [{...data, <actorKey>: socket.user}] under the
    event's name.  The four keys the handlers write are kept apart. *)
Record ServerEvent := mkServerEvent {
  se_name : string;
  se_boardId : string;
  se_data : EventData;
  se_updatedBy : option User;
  se_movedBy : option User;
  se_addedBy : option User;
  se_reorderedBy : option User
}.

Definition relayed_event (ev : ClientEvent) (u : User) : ServerEvent :=
  let mk := mkServerEvent (event_name (ce_data ev)) (ce_boardId ev) (ce_data ev) in
  match ce_data ev with
  | CardUpdated _ _ => mk (Some u) None None None
  | CardMoved _ _ _ _ => mk None (Some u) None None
  | CommentAdded _ _ => mk None None (Some u) None
  | ListUpdated _ _ => mk (Some u) None None None
  | ListsReordered _ => mk None None None (Some u)
  end.

(** A delivery: the receiving socket and the event it is handed. *)
Definition Delivery : Type := string * ServerEvent.

(** [socket.to(room).emit(name, payload)]: every socket of the room but
    [socket] itself. *)
Definition socket_to_emit (sock : Socket) (room : string) (e : ServerEvent)
    (rooms : gmap string (gset string)) : list Delivery :=
  (λ sid, (sid, e)) <$> elements (room_members rooms room ∖ {[sock_id sock]}).

(** [socket.on('join-board', async (boardId) => ...)] is an async handler:
    it starts the access lookup and yields; the rest runs when the lookup
    has settled, after whatever messages the server handled meanwhile.

    [join_board_lookup]: the handler up to its [await], the lookup on the
    database as it is when the message is handled. *)
Definition join_board_lookup (sock : Socket) (boardId : string) (srv : Server)
  : Result (option Board) :=
  (board_findFirst (user_id (sock_user sock)) boardId (srv_db srv)).2.

(** [join_board_settle]: the handler after its [await], on the server as it
    is then.  Without access, and when the lookup threw (logged on the
    server), nothing happens. *)
Definition join_board_settle (sock : Socket) (boardId : string)
    (board : Result (option Board)) (srv : Server) : Server * list Delivery :=
  match board with
  | Ok (Some _) =>
      (mkServer (srv_db srv) (socket_join (sock_id sock) (room_name boardId) (srv_rooms srv)), [])
  | Ok None => (srv, [])
  | Throw _ => (srv, [])
  end.

(** A join handled from its message to its end with no other message of the
    server in between. *)
Definition on_join_board (sock : Socket) (boardId : string) (srv : Server)
  : Server * list Delivery :=
  join_board_settle sock boardId (join_board_lookup sock boardId srv) srv.

(** [socket.on('leave-board', (boardId) => ...)] *)
Definition on_leave_board (sock : Socket) (boardId : string) (srv : Server)
  : Server * list Delivery :=
  (mkServer (srv_db srv) (socket_leave (sock_id sock) (room_name boardId) (srv_rooms srv)), []).

(** The handlers of card-updated, card-moved, comment-added, list-updated
    and lists-reordered: the same access check, then a broadcast to the
    board's room except the sender.  The room is read when the lookup has
    settled; here the handler runs from its message to its end with no
    other message of the server in between. *)
Definition on_relay (sock : Socket) (ev : ClientEvent) (srv : Server)
  : Server * list Delivery :=
  match board_findFirst (user_id (sock_user sock)) (ce_boardId ev) (srv_db srv) with
  | (_, Ok (Some _)) =>
      (srv, socket_to_emit sock (room_name (ce_boardId ev))
              (relayed_event ev (sock_user sock)) (srv_rooms srv))
  | (_, Ok None) => (srv, [])
  | (_, Throw _) => (srv, [])
  end.

(** ** The board page ([Board.tsx]) *)

(** A card object of the cached board: a card as the server sent it, or
    the object [{position}] that [{...card, position}] gives when [card] is
    [undefined]. *)
Inductive ViewCard :=
| Full (card : Card)
| Blank (position : Q).

Definition vc_position (v : ViewCard) : Q :=
  match v with
  | Full c => card_position c
  | Blank p => p
  end.

(** [card.id] as it is written into the path [`/cards/${cardId}/move`]. *)
Definition vc_id (v : ViewCard) : string :=
  match v with
  | Full c => card_id c
  | Blank _ => "undefined"
  end.

Record ListView := mkListView {
  lv_id : string;
  lv_title : string;
  lv_position : Q;
  lv_cards : list ViewCard
}.

Record BoardView := mkBoardView {
  bv_id : string;
  bv_lists : list ListView
}.

Record Location := mkLocation {
  droppableId : string;
  index : nat
}.

Record DropResult := mkDropResult {
  destination : option Location;
  source : Location;
  type : string
}.

(** [const [x] = a.splice(i, 1)]: the removed element and the rest; an
    index that addresses no element removes nothing and [x] is [undefined]
    ([None]). *)
Definition splice_out {A} (i : nat) (a : list A) : option A * list A :=
  (a !! i, delete i a).

(** [a.splice(i, 0, x)]: an index past the end inserts at the end. *)
Definition splice_in {A} (i : nat) (x : A) (a : list A) : list A :=
  take i a ++ x :: drop i a.

(** [a[i]]: [undefined] ([None]) past the end, and for an [i] from
    2^32 - 1 on, which is not an array index. *)
Definition js_nth {A} (a : list A) (i : nat) : option A :=
  if bool_decide (Z.of_nat i < 2 ^ 32 - 1)%Z then a !! i else None.

(** [{...card, position}] *)
Definition with_position (card : option ViewCard) (position : Q) : ViewCard :=
  match card with
  | Some (Full c) => Full (mkCard (card_id c) (card_title c) (card_listId c) position)
  | Some (Blank _) => Blank position
  | None => Blank position
  end.

(** [cards.map((card, index) => ({...card, position: (index + 1) * 1000}))];
    the array may hold [undefined]. *)
Definition renumber (cards : list (option ViewCard)) : list ViewCard :=
  imap (λ index card, with_position card (index_key index)) cards.

Inductive DragOutcome :=
| Ignored                                  (* an early [return] *)
| ReorderLists (listIds : list string)     (* [reorderListsMutation.mutate] *)
| MoveCard (optimistic : list ListView) (cardId listId : string) (position : Q)
                                           (* [setQueryData], [moveCardMutation.mutate] *)
| Threw (optimistic : option (list ListView)).
(** [Threw]: a TypeError on reading a property of [undefined], after the
    [setQueryData] if there was one; no mutation is started.  In [MoveCard]
    the card id is the path segment of the request. *)

Definition find_list (lists : list ListView) (id : string) : option ListView :=
  List.find (λ l, bool_decide (lv_id l = id)) lists.

Definition handleDragEnd (board : option BoardView) (result : DropResult) : DragOutcome :=
  match destination result with
  | None => Ignored
  | Some dest =>
      let src := source result in
      if bool_decide (droppableId dest = droppableId src) && bool_decide (index dest = index src)
      then Ignored
      else if bool_decide (type result = "list") then
        let lists := from_option bv_lists [] board in
        let '(reorderedList, rest) := splice_out (index src) lists in
        let newListOrder := splice_in (index dest) reorderedList (Some <$> rest) in
        match mapM (fmap (M := option) lv_id) newListOrder with   (* [list.id] *)
        | Some listIds => ReorderLists listIds
        | None => Threw None
        end
      else
        let lists := from_option bv_lists [] board in
        match find_list lists (droppableId src), find_list lists (droppableId dest) with
        | Some sourceList, Some destList =>
            if bool_decide (droppableId src = droppableId dest) then
              let '(movedCard, rest) := splice_out (index src) (lv_cards sourceList) in
              let updatedCards := renumber (splice_in (index dest) movedCard (Some <$> rest)) in
              let cache :=
                (λ l, if bool_decide (lv_id l = droppableId src)
                      then mkListView (lv_id l) (lv_title l) (lv_position l) updatedCards
                      else l) <$> lists in
              match js_nth updatedCards (index dest) with
              | Some movedCardData =>
                  MoveCard cache (vc_id movedCardData) (droppableId src)
                           (vc_position movedCardData)
              | None => Threw (Some cache)     (* [movedCardData.id] *)
              end
            else
              let '(movedCard, sourceCards) := splice_out (index src) (lv_cards sourceList) in
              let updatedSourceCards := renumber (Some <$> sourceCards) in
              let updatedDestCards :=
                renumber (splice_in (index dest) movedCard (Some <$> lv_cards destList)) in
              let cache :=
                (λ l, if bool_decide (lv_id l = droppableId src)
                      then mkListView (lv_id l) (lv_title l) (lv_position l) updatedSourceCards
                      else if bool_decide (lv_id l = droppableId dest)
                      then mkListView (lv_id l) (lv_title l) (lv_position l) updatedDestCards
                      else l) <$> lists in
              match js_nth updatedDestCards (index dest) with
              | Some movedCardData =>
                  MoveCard cache (vc_id movedCardData) (droppableId dest)
                           (vc_position movedCardData)
              | None => Threw (Some cache)     (* [movedCardData.id] *)
              end
        | _, _ => Ignored
        end
  end.

(** The socket listeners of the board page.  Each reads the actor under its
    own key and compares [actor?.id] with [user?.id]; the only effect is
    [queryClient.invalidateQueries], which makes the board query refetch. *)






(** ** A drag, end to end

    What leaves the browser after [handleDragEnd]: the mutation's HTTP
    request.  The page emits on the socket only [join-board] and
    [leave-board] (in the effect that registers the listeners). *)

Inductive ClientAction :=
| HttpMoveCard (cardId : string) (body : MoveBody)
| HttpReorderLists (body : ReorderBody)
| SocketJoin (boardId : string)
| SocketLeave (boardId : string)
| SocketEmit (ev : ClientEvent).

Definition drag_actions (boardId : string) (o : DragOutcome) : list ClientAction :=
  match o with
  | MoveCard _ cardId listId position => [HttpMoveCard cardId (mkMoveBody listId position)]
  | ReorderLists listIds => [HttpReorderLists (mkReorderBody listIds boardId)]
  | Ignored | Threw _ => []
  end.

(** The server's reaction to one action of the client behind [sock]: the
    new server state, the HTTP response if the action was a request, and
    the socket deliveries. *)
Definition serve (sock : Socket) (a : ClientAction) (srv : Server)
  : Server * option Response * list Delivery :=
  let uid := user_id (sock_user sock) in
  match a with
  | HttpMoveCard cid body =>
      let '(d, r) := put_card_move uid cid body (srv_db srv) in
      (mkServer d (srv_rooms srv),
       match r with Ok resp => Some resp | Throw _ => None end, [])
  | HttpReorderLists body =>
      let '(d, r) := lists_router_put uid "reorder" (reorder_request body) (srv_db srv) in
      (mkServer d (srv_rooms srv),
       match r with Ok resp => Some resp | Throw _ => None end, [])
  | SocketJoin boardId =>
      let '(s, ds) := on_join_board sock boardId srv in (s, None, ds)
  | SocketLeave boardId =>
      let '(s, ds) := on_leave_board sock boardId srv in (s, None, ds)
  | SocketEmit ev =>
      let '(s, ds) := on_relay sock ev srv in (s, None, ds)
  end.

Fixpoint serve_all (sock : Socket) (acts : list ClientAction) (srv : Server)
  : Server * list Response * list Delivery :=
  match acts with
  | [] => (srv, [], [])
  | a :: rest =>
      let '(s1, r, ds1) := serve sock a srv in
      let '(s2, rs, ds2) := serve_all sock rest s1 in
      (s2, option_list r ++ rs, ds1 ++ ds2)
  end.

(** The user behind [sock], looking at [board], ends a drag. *)
Definition drag (sock : Socket) (board : BoardView) (result : DropResult) (srv : Server)
  : Server * list Response * list Delivery :=
  serve_all sock (drag_actions (bv_id board) (handleDragEnd (Some board) result)) srv.

(** ** A small board used in the examples *)

Module Demo.

Definition alice : User := mkUser "u1" "Alice" "alice@example.com".
Definition bob : User := mkUser "u2" "Bob" "bob@example.com".
Definition carol : User := mkUser "u3" "Carol" "carol@example.com".

Definition cardA : Card := mkCard "A" "Card A" "L" 1000%Q.
Definition cardC : Card := mkCard "C" "Card C" "L" 2000%Q.

Definition db0 : Db :=
  mkDb true
       {[ "B" := mkBoard "B" "u1" ["u2"] ]}
       (<["L" := mkBList "L" "Todo" "B" 1000%Q]> {[ "L2" := mkBList "L2" "Doing" "B" 2000%Q ]})
       (<["A" := cardA]> {[ "C" := cardC ]})
       [].

Definition view0 : BoardView :=
  mkBoardView "B" [mkListView "L" "Todo" 1000%Q [Full cardA; Full cardC];
                   mkListView "L2" "Doing" 2000%Q []].

Definition sock1 : Socket := mkSocket "s1" alice.
Definition sock2 : Socket := mkSocket "s2" bob.
Definition sock3 : Socket := mkSocket "s3" carol.   (* no access to B *)
Definition sock4 : Socket := mkSocket "s4" alice.   (* Alice's second tab *)

(** Both Alice and Bob have joined the room of board B. *)
Definition srv0 : Server :=
  (on_join_board sock2 "B" (on_join_board sock1 "B" (mkServer db0 ∅)).1).1.

(** Card C (index 1) is dropped at index 0 of the same list. *)
Definition dropC : DropResult :=
  mkDropResult (Some (mkLocation "L" 0)) (mkLocation "L" 1) "card".

End Demo.

(** ** Notions used in the statements *)

(** The cards of list [lid], and the lists of board [bid], as rows of the
    tables. *)
Definition card_in (d : Db) (lid : string) (c : Card) : Prop :=
  (∃ i, db_cards d !! i = Some c) ∧ card_listId c = lid.

Definition list_in (d : Db) (bid : string) (l : BList) : Prop :=
  (∃ i, db_lists d !! i = Some l) ∧ list_boardId l = bid.

(** [p] is the key an append gives among the rows [sibling]: [STEP] when
    there is none, else the sum, as the machine adds, of [STEP] and the key
    of a sibling of largest key. *)
Definition appended_key {A} (pos : A → Q) (sibling : A → Prop) (p : Q) : Prop :=
  ((∀ r, ¬ sibling r) ∧ p = STEP) ∨
  (∃ m, sibling m ∧ (∀ r, sibling r → (pos r <= pos m)%Q) ∧ p = js_add (pos m) STEP).


(** [z] is the largest key among the rows [sibling]. *)
Definition largest_key {A} (pos : A → Q) (sibling : A → Prop) (z : Z) : Prop :=
  ∃ m, sibling m ∧ (∀ r, sibling r → (pos r <= pos m)%Q) ∧ (pos m == inject_Z z)%Q.

(** The cards of list [lid] have pairwise different keys. *)
Definition distinct_card_keys (d : Db) (lid : string) : Prop :=
  ∀ i j c1 c2,
    i ≠ j → db_cards d !! i = Some c1 → db_cards d !! j = Some c2 →
    card_listId c1 = lid → card_listId c2 = lid →
    ¬ (card_position c1 == card_position c2)%Q.

Definition reposition (l : BList) (p : Q) : BList :=
  mkBList (list_id l) (list_title l) (list_boardId l) p.

(** The lists table once every update of a reorder has settled, the first
    id taking the key of index [k]. *)
Fixpoint reorder_table (k : nat) (ids : list string) (m : gmap string BList)
  : gmap string BList :=
  match ids with
  | [] => m
  | id :: rest =>
      reorder_table (S k) rest
        (match m !! id with
         | Some l => <[id := reposition l (index_key k)]> m
         | None => m
         end)
  end.

(** Every listed id holds its new key in [d']. *)
Definition reorder_applied (ids : list string) (d' : Db) : Prop :=
  ∀ i id, ids !! i = Some id →
    ∃ l, db_lists d' !! id = Some l ∧ list_position l = index_key i.


(** The requester of a join is told something. *)
Definition join_reported (sock : Socket) (boardId : string) (srv : Server) : Prop :=
  ∃ e, (sock_id sock, e) ∈ (on_join_board sock boardId srv).2.

(** A relay by [sock] for [ev] passes the access check. *)
Definition relay_allowed (sock : Socket) (ev : ClientEvent) (srv : Server) : Prop :=
  db_up (srv_db srv) = true ∧
  is_Some (board_access (srv_db srv) (user_id (sock_user sock)) (ce_boardId ev)).

Definition is_ok {A} (r : Result A) : Prop :=
  match r with Ok _ => True | Throw _ => False end.

(** ** Pagination helpers ([utils/pagination])

    The numbers these helpers see are results of [parseInt] and of integer
    arithmetic on them: an integer, an infinity, or NaN.  Integers are exact
    here (no rounding of very large values, no negative zero). *)

Inductive JsInt :=
| JNaN
| JNegInf
| JFin (z : Z)
| JPosInf.

(** [x || dflt]: NaN and 0 are falsy. *)
Definition js_or (x : JsInt) (dflt : Z) : JsInt :=
  match x with
  | JNaN | JFin 0 => JFin dflt
  | _ => x
  end.

(** [Math.max(a, x)] and [Math.min(a, x)] for a finite [a]. *)
Definition js_max (a : Z) (x : JsInt) : JsInt :=
  match x with
  | JNaN => JNaN
  | JNegInf => JFin a
  | JFin z => JFin (Z.max a z)
  | JPosInf => JPosInf
  end.

Definition js_min (a : Z) (x : JsInt) : JsInt :=
  match x with
  | JNaN => JNaN
  | JNegInf => JNegInf
  | JFin z => JFin (Z.min a z)
  | JPosInf => JFin a
  end.

(** [x < y] *)
Definition js_lt (x y : JsInt) : bool :=
  match x, y with
  | JNaN, _ | _, JNaN => false
  | JFin a, JFin b => bool_decide (a < b)%Z
  | JNegInf, JNegInf => false
  | JNegInf, _ => true
  | _, JNegInf => false
  | JPosInf, _ => false
  | JFin _, JPosInf => true
  end.

(** [x - a] for a finite [a]. *)
Definition js_sub (x : JsInt) (a : Z) : JsInt :=
  match x with
  | JFin z => JFin (z - a)
  | _ => x
  end.

(** [x * y] *)
Definition js_mul (x y : JsInt) : JsInt :=
  let inf_times (positive : bool) (z : Z) : JsInt :=
    if bool_decide (z = 0)%Z then JNaN
    else if bool_decide (Bool.eqb positive (bool_decide (0 < z)%Z)) then JPosInf
    else JNegInf in
  match x, y with
  | JNaN, _ | _, JNaN => JNaN
  | JFin a, JFin b => JFin (a * b)
  | JPosInf, JFin b => inf_times true b
  | JNegInf, JFin b => inf_times false b
  | JFin a, JPosInf => inf_times true a
  | JFin a, JNegInf => inf_times false a
  | JPosInf, JPosInf | JNegInf, JNegInf => JPosInf
  | JPosInf, JNegInf | JNegInf, JPosInf => JNegInf
  end.

(** [Math.ceil(total / limit)] for an integer [total]. *)
Definition js_ceil_div (total : Z) (limit : JsInt) : JsInt :=
  match limit with
  | JNaN => JNaN
  | JPosInf | JNegInf => JFin 0
  | JFin l =>
      if bool_decide (l = 0)%Z then
        (if bool_decide (0 < total)%Z then JPosInf
         else if bool_decide (total < 0)%Z then JNegInf
         else JNaN)
      else JFin (- ((- total) / l))%Z
  end.

(** The query of a paginated request: [parseInt(params.page)],
    [parseInt(params.limit)], and the two sort fields as sent. *)
Record PaginationQuery := mkPaginationQuery {
  q_page : JsInt;
  q_limit : JsInt;
  q_sortBy : option string;
  q_sortOrder : option string
}.

Record PaginationParams := mkPaginationParams {
  page : JsInt;
  limit : JsInt;
  sortBy : string;
  sortOrder : string
}.

Definition validatePaginationParams (params : PaginationQuery) : PaginationParams :=
  mkPaginationParams
    (js_max 1 (js_or (q_page params) 1))
    (js_min 100 (js_max 1 (js_or (q_limit params) 10)))
    (match q_sortBy params with
     | Some s => if bool_decide (s = "") then "createdAt" else s
     | None => "createdAt"
     end)
    (if bool_decide (q_sortOrder params = Some "asc") then "asc" else "desc").

Record Pagination := mkPagination {
  pg_page : JsInt;
  pg_limit : JsInt;
  total : Z;
  totalPages : JsInt;
  hasNext : bool;
  hasPrev : bool
}.

Definition createPaginationResponse {T} (data : list T) (total : Z) (page limit : JsInt)
  : list T * Pagination :=
  let totalPages := js_ceil_div total limit in
  (data, mkPagination page limit total totalPages (js_lt page totalPages) (js_lt (JFin 1) page)).

Record SkipTake := mkSkipTake { skip : JsInt; take_count : JsInt }.

Definition getPrismaSkipTake (page limit : JsInt) : SkipTake :=
  mkSkipTake (js_mul (js_sub page 1) limit) limit.

(** ** GET /activities/board/:boardId

    [findMany({where: {boardId}, orderBy: {createdAt: 'desc'}, skip, take})]
    and [count({where: {boardId}})].  The log is kept in creation order, so
    newest first is its reverse.  [skip] and [take] are counts: the client
    library refuses a value that is not a finite integer; a negative one is
    never passed by the route (the page is at least 1, the limit at least 1)
    and is refused here as well. *)

Definition board_activities (d : Db) (bid : string) : list Activity :=
  reverse (filter (λ a, act_boardId a = bid) (db_activities d)).

Definition js_count (x : JsInt) : option nat :=
  match x with
  | JFin z => if bool_decide (0 ≤ z)%Z then Some (Z.to_nat z) else None
  | _ => None
  end.

Definition activity_findMany (bid : string) (sk tk : JsInt) : Prisma (list Activity) :=
  connected (λ d,
    match js_count sk, js_count tk with
    | Some s, Some t => (d, Ok (take t (drop s (board_activities d bid))))
    | _, _ => (d, Throw "Argument validation error")
    end).

Definition activity_count (bid : string) : Prisma Z :=
  connected (λ d, (d, Ok (Z.of_nat (length (board_activities d bid))))).

Inductive ActivitiesResponse :=
| ActivitiesPage (activities : list Activity) (pagination : Pagination)
| ActivitiesError (status : nat) (error : string).

Definition get_board_activities (uid boardId : string) (query : PaginationQuery)
  : Prisma ActivitiesResponse :=
  try_catch
    (let params := validatePaginationParams query in
     let st := getPrismaSkipTake (page params) (limit params) in
     let* board := board_findFirst uid boardId in
     match board with
     | None => ret (ActivitiesError 404 "Board not found or insufficient permissions")
     | Some _ =>
         let* activities := activity_findMany boardId (skip st) (take_count st) in
         let* total := activity_count boardId in
         let response :=
           createPaginationResponse activities total (page params) (limit params) in
         ret (ActivitiesPage response.1 response.2)
     end)
    (λ _, ret (ActivitiesError 500 "Failed to fetch activities")).

(** ** Runs of the socket server

    A run is a sequence of actions, each by the client behind some socket.
    [users] is the table of connected sockets: the user the middleware
    attached to each socket id. *)

Fixpoint run (trace : list (Socket * ClientAction)) (srv : Server) : Server * list Delivery :=
  match trace with
  | [] => (srv, [])
  | (sock, a) :: rest =>
      let '(s1, _, ds1) := serve sock a srv in
      let '(s2, ds2) := run rest s1 in
      (s2, ds1 ++ ds2)
  end.

Definition known_sockets (users : gmap string User) (trace : list (Socket * ClientAction))
  : Prop :=
  ∀ sock a, (sock, a) ∈ trace → users !! sock_id sock = Some (sock_user sock).

(** Every member of a board's room is the socket of a user with access to
    that board. *)
Definition rooms_authorized (users : gmap string User) (srv : Server) : Prop :=
  ∀ b sid, sid ∈ room_members (srv_rooms srv) (room_name b) →
    ∃ u, users !! sid = Some u ∧ is_Some (board_access (srv_db srv) (user_id u) b).


(** The user is owner or member of no board. *)
Definition stranger (d : Db) (uid : string) : Prop :=
  ∀ bid, board_access d uid bid = None.

(** The answer of a route, if it gave one. *)
Definition answer (r : Db * Result Response) : option Response :=
  match r.2 with Ok resp => Some resp | Throw _ => None end.

(** The cards a card drag leaves in the source list and in the destination
    list of the page's view: [sourceCards] and [destCards] of [handleDragEnd]
    before they are renumbered (in a move within one list both are the
    list's cards with the dragged card put back at the drop index). *)
Definition cards_after_drag (src dest : Location) (sourceList destList : ListView)
    (movedCard : option ViewCard) : list (option ViewCard) * list (option ViewCard) :=
  if bool_decide (droppableId src = droppableId dest) then
    let newCards :=
      splice_in (index dest) movedCard (Some <$> delete (index src) (lv_cards sourceList)) in
    (newCards, newCards)
  else
    (Some <$> delete (index src) (lv_cards sourceList),
     splice_in (index dest) movedCard (Some <$> lv_cards destList)).

(** The number of cards the destination array holds when the dragged card
    is put into it. *)
Definition drop_room (src dest : Location) (sourceList destList : ListView) : nat :=
  if bool_decide (droppableId src = droppableId dest)
  then length (delete (index src) (lv_cards sourceList))
  else length (lv_cards destList).

(** * Properties *)

(** ** Numbers and strings *)

Lemma round64_Qeq (p q : Q) : (p == q)%Q → round64 p = round64 q.
Proof. intros H. unfold round64. by rewrite (Qred_complete _ _ H). Qed.

Lemma Qred_inject_Z (z : Z) : Qred (inject_Z z) = inject_Z z.
Proof. apply Qcanon.Qred_identity. simpl. apply Z.gcd_1_r. Qed.

Lemma round_half_even_1 (a : Z) : round_half_even a 1 = a.
Proof. unfold round_half_even. rewrite Z.mod_1_r, Z.div_1_r. reflexivity. Qed.

(** An integer of magnitude at most 2^53 is a double. *)
Lemma round64_inject_Z (z : Z) :
  (Z.abs z ≤ 2 ^ 53)%Z → round64 (inject_Z z) = inject_Z z.
Proof.
  intros Hz. unfold round64. rewrite Qred_inject_Z. simpl Qnum. simpl Qden.
  case_bool_decide as Hn.
  { assert (z = 0%Z) by lia. by subst. }
  set (n := Z.abs z) in *.
  assert (Hpos : (0 < n)%Z) by lia.
  change (Z.log2 1) with 0%Z. rewrite Z.sub_0_r.
  pose proof (Z.log2_spec n Hpos) as [Hlo Hhi].
  pose proof (Z.log2_nonneg n) as Hl0.
  assert (Hl53 : (Z.log2 n ≤ 53)%Z).
  { destruct (decide (Z.log2 n ≤ 53)%Z) as [|Hgt]; [done|].
    assert (2 ^ 54 ≤ 2 ^ Z.log2 n)%Z by (apply Z.pow_le_mono_r; lia).
    assert (2 ^ 53 < 2 ^ 54)%Z by (apply Z.pow_lt_mono_r; lia). lia. }
  rewrite bool_decide_eq_true_2.
  2:{ unfold pow2. rewrite (Z.max_r 0 (Z.log2 n)) by lia.
      rewrite (Z.max_l 0 (- Z.log2 n)) by lia. lia. }
  rewrite (Z.max_l (Z.log2 n)) by lia.
  etrans; [|apply (Qred_inject_Z z)]. apply Qred_complete.
  destruct (decide (Z.log2 n = 53%Z)) as [H53|H53].
  - rewrite H53 in *. change (pow2 (- (53 - 52))) with 1%Z.
    change (pow2 (53 - 52)) with 2%Z.
    assert (n = 2 ^ 53)%Z as Hn53 by lia.
    rewrite Hn53. change (round_half_even (2 ^ 53 * 1) (1 * 2)) with (2 ^ 52)%Z.
    assert (Z.sgn z * 2 ^ 52 * 2 = z)%Z as -> by (unfold n in Hn53; lia).
    unfold Qdiv. change (/ inject_Z 1)%Q with 1%Q. apply Qmult_1_r.
  - assert (pow2 (Z.log2 n - 52) = 1)%Z as ->.
    { unfold pow2. rewrite Z.max_l by lia. reflexivity. }
    rewrite Z.mul_1_l, round_half_even_1, Z.mul_1_r.
    set (p := pow2 (- (Z.log2 n - 52))).
    assert (0 < p)%Z by (unfold p, pow2; apply Z.pow_pos_nonneg; lia).
    assert (Z.sgn z * n = z)%Z as Hs by (unfold n; lia).
    rewrite Z.mul_assoc, Hs.
    rewrite inject_Z_mult. field.
    intros Hp. unfold Qeq in Hp. simpl in Hp. lia.
Qed.

(** Adding integers is exact as long as the sum stays within 2^53. *)
Lemma js_add_inject_Z (x : Q) (z y : Z) :
  (x == inject_Z z)%Q → (Z.abs (z + y) ≤ 2 ^ 53)%Z →
  js_add x (inject_Z y) = inject_Z (z + y).
Proof.
  intros Hx H. unfold js_add. rewrite <- (round64_inject_Z (z + y)) by done.
  apply round64_Qeq. by rewrite Hx, inject_Z_plus.
Qed.

(** Known sums: 0.1 + 0.2 is the double 0.30000000000000004; above 2^53 a
    sum falls on the even neighbour; 1000 is lost next to 1e19. *)
Example js_add_tenths :
  js_add (round64 (1 # 10)) (round64 (2 # 10)) = (1351079888211149 # 4503599627370496)%Q.
Proof. vm_compute. reflexivity. Qed.

Example js_add_above_2_53 :
  js_add (inject_Z (2 ^ 53)) 1 = inject_Z (2 ^ 53) ∧
  js_add (inject_Z (2 ^ 53 + 2)) 1 = inject_Z (2 ^ 53 + 4).
Proof. split; vm_compute; reflexivity. Qed.

Example js_add_1e19 : js_add (inject_Z (10 ^ 19)) 1000 = inject_Z (10 ^ 19).
Proof. vm_compute. reflexivity. Qed.

(** The numbers [isNumeric] accepts and refuses. *)
Example isNumeric_examples :
  isNumeric 0 = true ∧ isNumeric 1500 = true ∧ isNumeric (-(3 # 2)) = true ∧
  isNumeric (round64 (1 # 1000000)) = true ∧ isNumeric (inject_Z (10 ^ 19)) = true ∧
  isNumeric (inject_Z (10 ^ 21)) = false ∧ isNumeric (round64 (1 # 10000000)) = false.
Proof. vm_compute. repeat split; reflexivity. Qed.

(** The key of every array index is accepted. *)
Lemma isNumeric_index_key (i : nat) :
  (Z.of_nat i < 2 ^ 32 - 1)%Z → isNumeric (index_key i) = true.
Proof.
  intros Hi. unfold isNumeric, index_key.
  set (z := ((Z.of_nat i + 1) * 1000)%Z).
  assert (1000 ≤ z < 10 ^ 21)%Z as [Hlo Hhi] by (unfold z; lia).
  rewrite Qabs_pos by (rewrite <- (Zle_Qle 0); lia).
  apply orb_true_iff. right. apply andb_true_iff. split.
  - apply Qle_bool_iff. apply Qle_trans with (inject_Z 1000).
    + vm_compute. discriminate.
    + by rewrite <- Zle_Qle.
  - apply negb_true_iff. apply not_true_is_false. rewrite Qle_bool_iff.
    rewrite <- Zle_Qle. lia.
Qed.

(** [trim] removes every kind of white space at both ends, and none
    inside: here SPACE, TAB, U+00A0 (bytes 194 160), U+2028 and U+FEFF. *)
Example trim_examples :
  trim "  Write tests " = "Write tests" ∧
  trim (bytes [9; 194; 160; 226; 128; 168; 239; 187; 191]) = "" ∧
  trim (bytes [194; 160; 97; 32; 98; 226; 128; 137]) = "a b" ∧
  trim (bytes [195; 160]) = bytes [195; 160].
Proof. vm_compute. repeat split; reflexivity. Qed.

(** ** Appending: POST /cards and POST /lists *)

Section LastBy.
Context {A : Type} (pos : A → Q).

Lemma last_by_nil (rows : list A) : last_by pos rows = None ↔ rows = [].
Proof.
  destruct rows as [|r rows]; [done|]. split; [|done].
  simpl. destruct (last_by pos rows); [case (Qle_bool _ _)|]; done.
Qed.

Lemma last_by_max (rows : list A) (m : A) :
  last_by pos rows = Some m →
  m ∈ rows ∧ ∀ r, r ∈ rows → (pos r <= pos m)%Q.
Proof.
  revert m. induction rows as [|r rows IH]; intros m; [done|].
  simpl. destruct (last_by pos rows) as [m0|] eqn:E.
  - destruct (IH m0 eq_refl) as [Hin Hmax].
    destruct (Qle_bool (pos r) (pos m0)) eqn:Hle; intros [= <-].
    + apply Qle_bool_iff in Hle. split; [by right|].
      intros r' [->|?]%elem_of_cons; auto.
    + split; [by left|].
      assert (pos m0 < pos r)%Q as Hlt.
      { apply Qnot_le_lt. intros H%Qle_bool_iff. congruence. }
      intros r' [->|?]%elem_of_cons; [apply Qle_refl|].
      eapply Qle_trans; [by apply Hmax|by apply Qlt_le_weak].
  - intros [= <-]. apply last_by_nil in E as ->. split; [by left|].
    intros r' [->|?]%elem_of_cons; [apply Qle_refl|by apply elem_of_nil in H].
Qed.

Lemma last_by_appended (rows : list A) (sibling : A → Prop) :
  (∀ r, r ∈ rows ↔ sibling r) →
  appended_key pos sibling
    (match last_by pos rows with Some m => js_add (pos m) 1000 | None => 1000%Q end).
Proof.
  intros Hrows. destruct (last_by pos rows) as [m|] eqn:E.
  - right. exists m. destruct (last_by_max _ _ E) as [Hin Hmax].
    split; [by apply Hrows|]. split; [|done]. intros r Hr. by apply Hmax, Hrows.
  - left. apply last_by_nil in E as ->. split; [|done].
    intros r Hr%Hrows. by apply elem_of_nil in Hr.
Qed.

(** The appended key is exactly the largest key plus 1000 when that is an
    integer within 2^53. *)
Lemma appended_key_exact (sibling : A → Prop) (p : Q) (z : Z) :
  appended_key pos sibling p → largest_key pos sibling z →
  (Z.abs (z + 1000) ≤ 2 ^ 53)%Z →
  p = inject_Z (z + 1000).
Proof.
  intros [[Hnone _]|(m' & Hm' & Hmax' & ->)] (m & Hm & Hmax & Hz) Hb.
  - by destruct (Hnone m).
  - apply (js_add_inject_Z _ z 1000); [|done].
    rewrite <- Hz. apply Qle_antisym; auto.
Qed.
End LastBy.

Lemma elem_of_cards_of (d : Db) (lid : string) (c : Card) :
  c ∈ cards_of d lid ↔ card_in d lid c.
Proof.
  unfold cards_of, card_in. rewrite list_elem_of_filter, list_elem_of_fmap. split.
  - intros [? [[i c'] [-> H%elem_of_map_to_list]]]. eauto.
  - intros [[i H] ?]. split; [done|]. exists (i, c). by rewrite elem_of_map_to_list.
Qed.

Lemma elem_of_lists_of (d : Db) (bid : string) (l : BList) :
  l ∈ lists_of d bid ↔ list_in d bid l.
Proof.
  unfold lists_of, list_in. rewrite list_elem_of_filter, list_elem_of_fmap. split.
  - intros [? [[i l'] [-> H%elem_of_map_to_list]]]. eauto.
  - intros [[i H] ?]. split; [done|]. exists (i, l). by rewrite elem_of_map_to_list.
Qed.

Ltac run_prisma :=
  unfold try_catch, bind, ret, connected; simpl.

(** What POST /cards does with no position in the body, once the title is
    valid, the list is reachable and the id is fresh. *)
Lemma post_card_appends (uid newId title lid : string) (l : BList) (d : Db) :
  db_up d = true → trim title ≠ "" →
  list_access d uid lid = Some l → db_cards d !! newId = None →
  ∃ p,
    post_card uid newId (mkCardBody title lid None) d
      = (set_activities (λ a, a ++ [mkActivity "card_created" newId (list_boardId l) uid])
           (set_cards <[newId := mkCard newId (trim title) lid p]> d),
         Ok (Json 201 (PCard (mkCard newId (trim title) lid p)))) ∧
    appended_key card_position (card_in d lid) p.
Proof.
  intros Hup Ht Hl Hnew.
  unfold post_card, list_findFirst, card_findLast, card_create, activity_create.
  run_prisma. rewrite bool_decide_eq_false_2 by done. simpl.
  rewrite Hup, Hl. simpl. rewrite Hup. simpl. rewrite Hup, Hnew. simpl. rewrite Hup.
  eexists. split; [reflexivity|].
  apply (last_by_appended card_position). intros r. apply elem_of_cards_of.
Qed.

Lemma post_list_appends (uid newId title bid : string) (b : Board) (d : Db) :
  db_up d = true → trim title ≠ "" →
  board_access d uid bid = Some b → db_lists d !! newId = None →
  ∃ p,
    post_list uid newId (mkListBody title bid None) d
      = (set_lists <[newId := mkBList newId (trim title) bid p]> d,
         Ok (Json 201 (PList (mkBList newId (trim title) bid p)))) ∧
    appended_key list_position (list_in d bid) p.
Proof.
  intros Hup Ht Hb Hnew.
  unfold post_list, board_findFirst, list_findLast, list_create.
  run_prisma. rewrite bool_decide_eq_false_2 by done. simpl.
  rewrite Hup, Hb. simpl. rewrite Hup. simpl. rewrite Hup, Hnew.
  eexists. split; [reflexivity|].
  apply (last_by_appended list_position). intros r. apply elem_of_lists_of.
Qed.

(** C6 (as the code has it).  A card created in a list, or a list created
    in a board, with no position in the request gets 1000 when the
    container has no sibling, and else the sum of the largest sibling key
    and [STEP] = 1000 as the machine adds doubles: that sum rounded to the
    nearest double, which is the largest key plus 1000 exactly whenever the
    largest key is an integer and the sum is within 2^53.  With the
    database reachable, a title that is not blank, access to the container
    and a fresh id, the request answers 201 and the new row, with the
    trimmed title, is stored under its id in the container.  The siblings
    are the rows of the table that lie in the container. *)
Theorem create_without_position_appends (uid newId : string) (d : Db) :
  db_up d = true →
  (∀ title lid l,
     trim title ≠ "" → list_access d uid lid = Some l → db_cards d !! newId = None →
     ∃ d' card,
       post_card uid newId (mkCardBody title lid None) d = (d', Ok (Json 201 (PCard card))) ∧
       db_cards d' = <[newId := card]> (db_cards d) ∧
       card_id card = newId ∧ card_title card = trim title ∧ card_listId card = lid ∧
       appended_key card_position (card_in d lid) (card_position card) ∧
       (∀ z, largest_key card_position (card_in d lid) z → (Z.abs (z + 1000) ≤ 2 ^ 53)%Z →
             card_position card = inject_Z (z + 1000))) ∧
  (∀ title bid b,
     trim title ≠ "" → board_access d uid bid = Some b → db_lists d !! newId = None →
     ∃ d' list,
       post_list uid newId (mkListBody title bid None) d = (d', Ok (Json 201 (PList list))) ∧
       db_lists d' = <[newId := list]> (db_lists d) ∧
       list_id list = newId ∧ list_title list = trim title ∧ list_boardId list = bid ∧
       appended_key list_position (list_in d bid) (list_position list) ∧
       (∀ z, largest_key list_position (list_in d bid) z → (Z.abs (z + 1000) ≤ 2 ^ 53)%Z →
             list_position list = inject_Z (z + 1000))).
Proof.
  intros Hup. split.
  - intros title lid l Ht Hl Hnew.
    destruct (post_card_appends uid newId title lid l d Hup Ht Hl Hnew) as (p & -> & Hp).
    eexists _, _. split; [reflexivity|]. simpl. repeat (split; [done|]).
    intros z. by apply appended_key_exact.
  - intros title bid b Ht Hb Hnew.
    destruct (post_list_appends uid newId title bid b d Hup Ht Hb Hnew) as (p & -> & Hp).
    eexists _, _. split; [reflexivity|]. simpl. repeat (split; [done|]).
    intros z. by apply appended_key_exact.
Qed.

Lemma create_without_position_appends_witness :
  (∃ d' card,
     post_card "u1" "N" (mkCardBody " Write tests " "L" None) Demo.db0
       = (d', Ok (Json 201 (PCard card))) ∧
     db_cards d' = <["N" := card]> (db_cards Demo.db0) ∧
     card_id card = "N" ∧ card_title card = "Write tests" ∧ card_listId card = "L" ∧
     appended_key card_position (card_in Demo.db0 "L") (card_position card) ∧
     (∀ z, largest_key card_position (card_in Demo.db0 "L") z →
           (Z.abs (z + 1000) ≤ 2 ^ 53)%Z →
           card_position card = inject_Z (z + 1000))) ∧
  (∃ d' list,
     post_list "u2" "M" (mkListBody "Done" "B" None) Demo.db0
       = (d', Ok (Json 201 (PList list))) ∧
     db_lists d' = <["M" := list]> (db_lists Demo.db0) ∧
     list_id list = "M" ∧ list_title list = "Done" ∧ list_boardId list = "B" ∧
     appended_key list_position (list_in Demo.db0 "B") (list_position list) ∧
     (∀ z, largest_key list_position (list_in Demo.db0 "B") z →
           (Z.abs (z + 1000) ≤ 2 ^ 53)%Z →
           list_position list = inject_Z (z + 1000))).
Proof.
  destruct (create_without_position_appends "u1" "N" Demo.db0 eq_refl) as [Hcard _].
  destruct (create_without_position_appends "u2" "M" Demo.db0 eq_refl) as [_ Hlist].
  split.
  - apply (Hcard " Write tests " "L" (mkBList "L" "Todo" "B" 1000%Q));
      [vm_compute; discriminate | reflexivity | reflexivity].
  - apply (Hlist "Done" "B" (mkBoard "B" "u1" ["u2"]));
      [vm_compute; discriminate | reflexivity | reflexivity].
Defined.

(** C6, as stated, fails next to a large key.  Bob moves card C to
    position 1e19 in list L, which the move route accepts, and then creates
    a card in L with no position.  The largest key in L is 1e19; the new
    card's key is 1e19 as well (the double nearest to 1e19 + 1000), not
    1e19 + 1000. *)
Lemma create_after_1e19_ties :
  let d1 := (put_card_move "u2" "C" (mkMoveBody "L" (inject_Z (10 ^ 19))) Demo.db0).1 in
  largest_key card_position (card_in d1 "L") (10 ^ 19) ∧
  ∃ d' card,
    post_card "u2" "N" (mkCardBody "x" "L" None) d1 = (d', Ok (Json 201 (PCard card))) ∧
    card_position card = inject_Z (10 ^ 19) ∧
    ¬ (card_position card == inject_Z (10 ^ 19) + STEP)%Q.
Proof.
  intros d1. split.
  - exists (mkCard "C" "Card C" "L" (inject_Z (10 ^ 19))). split_and!.
    + split; [by exists "C"|done].
    + intros r [[i Hi] _].
      assert (db_cards d1
              = <["C" := mkCard "C" "Card C" "L" (inject_Z (10 ^ 19))]> (db_cards Demo.db0))
        as Hd1 by reflexivity.
      rewrite Hd1 in Hi. apply lookup_insert_Some in Hi as [[_ <-]|[_ Hi]]; [apply Qle_refl|].
      simpl in Hi. apply lookup_insert_Some in Hi as [[_ <-]|[_ Hi]].
      * vm_compute. discriminate.
      * apply lookup_singleton_Some in Hi as [_ <-]. vm_compute. discriminate.
    + reflexivity.
  - eexists _, _. split; [vm_compute; reflexivity|]. split; [reflexivity|].
    vm_compute. discriminate.
Qed.

(** The keys of the demo board: a third card of list L gets 3000, the first
    card of an empty list gets 1000. *)
Example post_card_after_two :
  (post_card "u1" "N" (mkCardBody "x" "L" None) Demo.db0).2
  = Ok (Json 201 (PCard (mkCard "N" "x" "L" 3000%Q))).
Proof. vm_compute. reflexivity. Qed.

Example post_card_in_empty_list :
  (post_card "u1" "N" (mkCardBody "x" "L" None)
     (set_cards (λ _, ∅) Demo.db0)).2
  = Ok (Json 201 (PCard (mkCard "N" "x" "L" 1000%Q))).
Proof. vm_compute. reflexivity. Qed.

(** A title of white space only is refused, whatever the white space. *)
Example post_card_blank_title :
  post_card "u1" "N" (mkCardBody (bytes [194; 160]) "L" None) Demo.db0
  = (Demo.db0, Ok (Json 400 (PError "Validation failed"))).
Proof. vm_compute. reflexivity. Qed.

(** ** Moving a card: PUT /cards/:id/move *)

Lemma card_access_lookup (d : Db) (uid cid : string) (c : Card) (l : BList) :
  card_access d uid cid = Some (c, l) → db_cards d !! cid = Some c.
Proof.
  unfold card_access. destruct (db_cards d !! cid) as [c0|]; [|done].
  destruct (list_access d uid (card_listId c0)); [|done]. by intros [= -> _].
Qed.

(** The validators of the move route: a position that [isNumeric] refuses
    is answered 400 before anything is read. *)
Lemma put_card_move_refused (uid cid : string) (body : MoveBody) (d : Db) :
  isNumeric (mb_position body) = false →
  put_card_move uid cid body d = (d, Ok (Json 400 (PError "Validation failed"))).
Proof. intros H. unfold put_card_move. run_prisma. by rewrite H. Qed.

(** The route on an accepted position, with access to the card and to the
    target list: the row is rewritten and the move is logged. *)
Lemma put_card_move_run (uid cid : string) (body : MoveBody) (d : Db) (c : Card) (l tl : BList) :
  db_up d = true → isNumeric (mb_position body) = true →
  card_access d uid cid = Some (c, l) →
  list_access d uid (mb_listId body) = Some tl →
  let c' := mkCard (card_id c) (card_title c) (mb_listId body) (mb_position body) in
  put_card_move uid cid body d
  = (set_activities (λ a, a ++ [mkActivity "card_moved" (card_id c) (list_boardId tl) uid])
       (set_cards <[cid := c']> d),
     Ok (Json 200 (PCard c'))).
Proof.
  intros Hup Hnum Hc Hl. unfold put_card_move, card_findFirst, list_findFirst, card_update,
    activity_create.
  run_prisma. rewrite Hnum. simpl. rewrite Hup, Hc. simpl. rewrite Hup, Hl. simpl.
  rewrite Hup, (card_access_lookup _ _ _ _ _ Hc). simpl. by rewrite Hup.
Qed.

(** C9 (as the code has it).  The move route stores the request as it is,
    once its validators have let the request pass.  Every request is
    answered, with status 200, 400, 404 or 500.  A position that the
    [isNumeric] validator refuses (one that JavaScript prints with an
    exponent: a magnitude from 1e21 on, or below 1e-6 and not 0) is
    answered 400 and nothing is written.  For a position it accepts, with
    the database reachable, a card the user can reach and a target list the
    user can reach, the answer is 200 and the card's row holds exactly the
    [listId] and the [position] of the body: no sibling key is read, no
    relation to the neighbours is checked and nothing else in the tables
    changes.  Without access the answer is 404 and nothing is written. *)
Theorem put_card_move_persists_request (uid cid : string) (body : MoveBody) (d : Db) :
  ∃ d' resp,
    put_card_move uid cid body d = (d', Ok resp) ∧
    (status resp = 200 ∨ status resp = 400 ∨ status resp = 404 ∨ status resp = 500) ∧
    (isNumeric (mb_position body) = false →
       resp = Json 400 (PError "Validation failed") ∧ d' = d) ∧
    (isNumeric (mb_position body) = true → db_up d = true →
     (∀ c l tl,
        card_access d uid cid = Some (c, l) →
        list_access d uid (mb_listId body) = Some tl →
        let c' := mkCard (card_id c) (card_title c) (mb_listId body) (mb_position body) in
        resp = Json 200 (PCard c') ∧
        db_cards d' = <[cid := c']> (db_cards d) ∧
        db_lists d' = db_lists d ∧ db_boards d' = db_boards d) ∧
     (card_access d uid cid = None ∨ list_access d uid (mb_listId body) = None →
        status resp = 404 ∧ d' = d)).
Proof.
  destruct (isNumeric (mb_position body)) eqn:Hnum.
  2: { rewrite put_card_move_refused by done. eexists _, _. split; [reflexivity|].
       split; [simpl; auto|]. split; [done|]. intros [=]. }
  unfold put_card_move, card_findFirst, list_findFirst, card_update, activity_create.
  run_prisma. rewrite Hnum. simpl. destruct (db_up d) eqn:Hup; simpl.
  2: { eexists _, _. split; [reflexivity|]. split; [simpl; auto|]. by split. }
  destruct (card_access d uid cid) as [[c l]|] eqn:Hc;
    destruct (list_access d uid (mb_listId body)) as [tl|] eqn:Hl;
    repeat (simpl; rewrite ?Hup; try rewrite (card_access_lookup _ _ _ _ _ Hc));
    (eexists _, _; split; [reflexivity|]; split; [simpl; auto|]; split; [done|];
     intros _ _; split).
  - intros c0 l0 tl0 [= <- <-] _. done.
  - intros [?|?]; done.
  - done.
  - intros _. split; [done|]. by destruct d.
  - done.
  - intros _. split; [done|]. by destruct d.
  - done.
  - intros _. split; [done|]. by destruct d.
Qed.

Lemma put_card_move_persists_request_witness :
  (∃ d',
     put_card_move "u2" "C" (mkMoveBody "L2" (3001 # 2)) Demo.db0
       = (d', Ok (Json 200 (PCard (mkCard "C" "Card C" "L2" (3001 # 2))))) ∧
     db_cards d' = <["C" := mkCard "C" "Card C" "L2" (3001 # 2)]> (db_cards Demo.db0)) ∧
  put_card_move "u2" "C" (mkMoveBody "L2" (round64 (1 # 10000000))) Demo.db0
    = (Demo.db0, Ok (Json 400 (PError "Validation failed"))).
Proof.
  split.
  - destruct (put_card_move_persists_request "u2" "C" (mkMoveBody "L2" (3001 # 2)) Demo.db0)
      as (d' & resp & Hrun & _ & _ & Hok).
    destruct (Hok eq_refl eq_refl) as [Hmove _].
    destruct (Hmove Demo.cardC (mkBList "L" "Todo" "B" 1000%Q) (mkBList "L2" "Doing" "B" 2000%Q)
                eq_refl eq_refl) as (-> & Hcards & _).
    exists d'. split; [exact Hrun | exact Hcards].
  - destruct (put_card_move_persists_request "u2" "C"
                (mkMoveBody "L2" (round64 (1 # 10000000))) Demo.db0)
      as (d' & resp & Hrun & _ & Hbad & _).
    destruct (Hbad eq_refl) as [-> ->]. exact Hrun.
Defined.

(** The claim fails for the number 1e21: Bob can reach card C and list L2,
    and his request to move C to L2 at position 1e21 is answered 400; the
    card stays where it was. *)
Lemma put_card_move_refuses_1e21 :
  is_Some (card_access Demo.db0 "u2" "C") ∧ is_Some (list_access Demo.db0 "u2" "L2") ∧
  ∃ d',
    put_card_move "u2" "C" (mkMoveBody "L2" (inject_Z (10 ^ 21))) Demo.db0
      = (d', Ok (Json 400 (PError "Validation failed"))) ∧
    db_cards d' !! "C" = Some (mkCard "C" "Card C" "L" 2000%Q).
Proof.
  split; [by eexists|]. split; [by eexists|].
  exists Demo.db0. split; [|reflexivity]. by apply put_card_move_refused.
Qed.

(** ** Reordering lists *)

Lemma index_key_step (i : nat) : (index_key i == inject_Z (Z.of_nat (S i)) * STEP)%Q.
Proof.
  unfold index_key, STEP. rewrite Nat2Z.inj_succ, <- Z.add_1_r.
  by rewrite inject_Z_mult.
Qed.

Lemma index_key_lt (i j : nat) : (i < j)%nat ↔ (index_key i < index_key j)%Q.
Proof. unfold index_key. rewrite <- Zlt_Qlt. lia. Qed.

Lemma index_key_inj (i j : nat) : (index_key i == index_key j)%Q → i = j.
Proof. unfold index_key. rewrite inject_Z_injective. lia. Qed.

Section ReorderTable.
Implicit Types (m : gmap string BList) (ids : list string).

Lemma reorder_table_notin k ids m id :
  id ∉ ids → reorder_table k ids m !! id = m !! id.
Proof.
  revert k m. induction ids as [|id0 rest IH]; intros k m Hid; [done|].
  apply not_elem_of_cons in Hid as [Hne Hrest]. simpl. rewrite IH by done.
  destruct (m !! id0); [by rewrite lookup_insert_ne|done].
Qed.


(** An id keeps the key of the last index at which it is listed. *)
Lemma reorder_table_lookup_last k ids m (i : nat) id l :
  ids !! i = Some id → (∀ j : nat, (i < j)%nat → ids !! j ≠ Some id) →
  m !! id = Some l →
  reorder_table k ids m !! id = Some (reposition l (index_key (k + i))).
Proof.
  revert k m i l. induction ids as [|id0 rest IH]; intros k m i l Hi Hlast Hl; [done|].
  destruct i as [|i]; simpl in *.
  - injection Hi as ->. rewrite reorder_table_notin.
    + rewrite Hl, lookup_insert_eq. by rewrite Nat.add_0_r.
    + intros [j Hj]%list_elem_of_lookup_1. apply (Hlast (S j)); [lia|done].
  - rewrite <- Nat.add_succ_comm.
    assert (∀ j : nat, (i < j)%nat → rest !! j ≠ Some id) as Hlast'.
    { intros j Hj. apply (Hlast (S j)). lia. }
    destruct (decide (id0 = id)) as [->|Hne].
    + rewrite Hl. rewrite (IH (S k) _ i (reposition l (index_key k))); [done..|].
      by rewrite lookup_insert_eq.
    + apply IH; [done..|].
      destruct (m !! id0); [by rewrite lookup_insert_ne|done].
Qed.

Lemma reorder_table_lookup k ids m i id l :
  NoDup ids → ids !! i = Some id → m !! id = Some l →
  reorder_table k ids m !! id = Some (reposition l (index_key (k + i))).
Proof.
  intros Hnd Hi Hl. apply reorder_table_lookup_last; [done| |done].
  intros j Hj Hjd. pose proof (NoDup_lookup _ _ _ _ Hnd Hi Hjd). lia.
Qed.
End ReorderTable.

Lemma promise_all_reorder (k : nat) (ids : list string) (d : Db) :
  db_up d = true →
  ∃ r,
    promise_all (imap (λ i id, list_update id (index_key (k + i))) ids) d
      = (set_lists (reorder_table k ids) d, r) ∧
    (is_ok r ↔ ∀ id, id ∈ ids → is_Some (db_lists d !! id)).
Proof.
  revert k d. induction ids as [|id rest IH]; intros k d Hup.
  - exists (Ok []). split; [by destruct d|]. split; [|done].
    intros _ id Hid. by apply elem_of_nil in Hid.
  - simpl. rewrite (imap_ext _ (λ i id, list_update id (index_key (S k + i))));
      [|by intros; simpl; rewrite Nat.add_succ_r].
    rewrite Nat.add_0_r. unfold list_update at 1, connected. rewrite Hup.
    destruct (db_lists d !! id) as [l|] eqn:El.
    + fold (reposition l (index_key k)).
      destruct (IH (S k) (set_lists <[id := reposition l (index_key k)]> d) Hup)
        as (rs & -> & Hok).
      eexists. split; [unfold set_lists; simpl; rewrite El; reflexivity|].
      assert (∀ id', is_Some (<[id := reposition l (index_key k)]> (db_lists d) !! id')
                     ↔ is_Some (db_lists d !! id')) as Hsame.
      { intros id'. destruct (decide (id = id')) as [<-|].
        - rewrite lookup_insert_eq, El. split; eauto.
        - by rewrite lookup_insert_ne. }
      simpl in Hok. destruct rs; simpl.
      * split; [intros _|done]. intros id' [->|Hin]%elem_of_cons; [by rewrite El|].
        apply Hsame, Hok; done.
      * split; [done|]. intros Hall. apply Hok. intros id' Hin.
        apply Hsame, Hall. by right.
    + destruct (IH (S k) d Hup) as (rs & -> & Hok).
      eexists. split; [unfold set_lists; simpl; rewrite El; reflexivity|].
      simpl. split; [done|].
      intros Hall. destruct (Hall id) as [? ?]; [by left|congruence].
Qed.

(** The route on an accepted request: the table is the reorder table, and
    the answer tells whether every id named a row. *)
Lemma put_lists_reorder_run (uid : string) (body : ReorderBody) (d : Db) :
  db_up d = true →
  is_Some (board_access d uid (rb_boardId body)) →
  rb_listIds body ≠ [] →
  ∃ resp,
    put_lists_reorder uid body d
      = (set_lists (reorder_table 0 (rb_listIds body)) d, Ok resp) ∧
    ((∀ id, id ∈ rb_listIds body → is_Some (db_lists d !! id)) →
       resp = Json 200 (PMessage "Lists reordered successfully")) ∧
    (¬ (∀ id, id ∈ rb_listIds body → is_Some (db_lists d !! id)) →
       resp = Json 500 (PError "Failed to reorder lists")).
Proof.
  intros Hup [b Hb] Hne. unfold put_lists_reorder, reorder_updates, board_findFirst.
  destruct (rb_listIds body) as [|id0 rest] eqn:Eids; [done|]. rewrite <- Eids. clear Hne.
  run_prisma. rewrite Hup, Hb.
  destruct (promise_all_reorder 0 (rb_listIds body) d Hup) as (r & Hrun & Hok).
  simpl in Hrun. rewrite Hrun. destruct r; simpl in *.
  - eexists. split; [reflexivity|]. split; [done|]. intros Hn. destruct Hn. by apply Hok.
  - eexists. split; [reflexivity|]. split; [|done]. intros Hall. by apply Hok in Hall.
Qed.

(** The handler registered for PUT /lists/reorder, were a request handed to
    it: with the database reachable, access to the board, and a non-empty
    sequence of pairwise different ids of existing lists, it answers 200
    and each listed row then holds the key [(i + 1) * 1000] of its index
    [i], the rest of the row unchanged. *)
Lemma put_lists_reorder_handler_rekeys (uid : string) (body : ReorderBody) (d : Db) :
  db_up d = true →
  is_Some (board_access d uid (rb_boardId body)) →
  rb_listIds body ≠ [] →
  NoDup (rb_listIds body) →
  (∀ id, id ∈ rb_listIds body → is_Some (db_lists d !! id)) →
  ∃ d',
    put_lists_reorder uid body d
      = (d', Ok (Json 200 (PMessage "Lists reordered successfully"))) ∧
    (∀ i id, rb_listIds body !! i = Some id →
       ∃ l, db_lists d !! id = Some l ∧
            db_lists d' !! id = Some (reposition l (index_key i)) ∧
            (index_key i == inject_Z (Z.of_nat (S i)) * STEP)%Q).
Proof.
  intros Hup Hacc Hne Hnd Hall.
  destruct (put_lists_reorder_run uid body d Hup Hacc Hne) as (resp & Hrun & H200 & _).
  rewrite (H200 Hall) in Hrun. eexists. split; [exact Hrun|].
  intros i id Hi. destruct (Hall id) as [l Hl]; [by eapply list_elem_of_lookup_2|].
  exists l. split; [done|]. simpl. split; [|apply index_key_step].
  by rewrite (reorder_table_lookup 0 _ _ i id l).
Qed.

(** *** The router *)

Lemma put_list_not_found (uid lid : string) (d : Db) :
  db_up d = true → list_access d uid lid = None →
  put_list uid lid (mkListUpdateBody None None) d
  = (d, Ok (Json 404 (PError "List not found or insufficient permissions"))).
Proof.
  intros Hup Hl. unfold put_list, list_findFirst. run_prisma. by rewrite Hup, Hl.
Qed.

(** With neither title nor position in the body, PUT /lists/:id writes the
    row it found back as it is. *)
Lemma put_list_empty_body (uid lid : string) (d : Db) :
  (put_list uid lid (mkListUpdateBody None None) d).1 = d.
Proof.
  unfold put_list, list_findFirst, list_update_data. run_prisma.
  destruct (db_up d) eqn:Hup; simpl; [|done].
  unfold list_access. destruct (db_lists d !! lid) as [l|] eqn:El; simpl; [|done].
  destruct (board_access d uid (list_boardId l)); simpl; [|done].
  rewrite Hup, El. simpl. destruct d as [up bs ls cs acts], l as [li lt lb lq]. simpl in *.
  unfold set_lists. simpl. f_equal. by apply insert_id.
Qed.

(** A reorder request goes to the handler of PUT /lists/:id, with the id
    [reorder]; it changes nothing, and it is answered 404 unless a list
    with the id [reorder] exists that the user can reach. *)
Lemma reorder_request_routed (uid : string) (body : ReorderBody) (d : Db) :
  lists_router_put uid "reorder" (reorder_request body) d
    = put_list uid "reorder" (mkListUpdateBody None None) d ∧
  (lists_router_put uid "reorder" (reorder_request body) d).1 = d ∧
  (db_up d = true → list_access d uid "reorder" = None →
   lists_router_put uid "reorder" (reorder_request body) d
   = (d, Ok (Json 404 (PError "List not found or insufficient permissions")))).
Proof.
  split; [done|]. split; [apply put_list_empty_body|].
  intros Hup Hl. by apply put_list_not_found.
Qed.

(** C7 (the code departs from it).  Bob, a member of board B, asks to
    reorder its lists to L2, L.  The handler written for the request would
    answer 200 and give L2 the key 1000 and L the key 2000.  The router
    never hands it the request: PUT /lists/:id is registered first and
    takes it, with [reorder] for the id; the answer is 404 and the lists
    keep the keys they had, L 1000 and L2 2000. *)
Theorem reorder_request_not_routed :
  let body := mkReorderBody ["L2"; "L"] "B" in
  lists_router_put "u2" "reorder" (reorder_request body) Demo.db0
    = (Demo.db0, Ok (Json 404 (PError "List not found or insufficient permissions"))) ∧
  serve Demo.sock2 (HttpReorderLists body) Demo.srv0
    = (Demo.srv0, Some (Json 404 (PError "List not found or insufficient permissions")), []) ∧
  list_position <$> db_lists Demo.db0 !! "L2" = Some 2000%Q ∧
  list_position <$> db_lists Demo.db0 !! "L" = Some 1000%Q ∧
  ¬ reorder_applied (rb_listIds body) Demo.db0 ∧
  ∃ d', put_lists_reorder "u2" body Demo.db0
          = (d', Ok (Json 200 (PMessage "Lists reordered successfully"))) ∧
        reorder_applied (rb_listIds body) d'.
Proof.
  simpl. split_and!.
  - by apply put_list_not_found.
  - unfold serve. simpl.
    change (srv_db Demo.srv0) with Demo.db0.
    rewrite (proj1 (reorder_request_routed _ _ _)), put_list_not_found by done.
    reflexivity.
  - reflexivity.
  - reflexivity.
  - intros Happ. destruct (Happ 0%nat "L2" eq_refl) as (l & Hl & Hpos).
    injection Hl as <-. vm_compute in Hpos. discriminate.
  - assert (∀ id, id ∈ ["L2"; "L"] → is_Some (db_lists Demo.db0 !! id)) as Hall.
    { intros id Hid. apply elem_of_cons in Hid as [->|Hid]; [by eexists|].
      apply elem_of_cons in Hid as [->|Hid]; [by eexists|]. by apply elem_of_nil in Hid. }
    destruct (put_lists_reorder_handler_rekeys "u2" (mkReorderBody ["L2"; "L"] "B") Demo.db0)
      as (d' & Hrun & Hkeys); [reflexivity | by eexists | discriminate | | exact Hall |].
    { apply NoDup_cons. split; [|apply NoDup_singleton].
      intros Hin. apply list_elem_of_singleton in Hin. discriminate. }
    exists d'. split; [exact Hrun|]. intros i id Hi.
    destruct (Hkeys i id Hi) as (l & _ & Hl & _). eexists. split; [exact Hl|done].
Qed.

(** *** The batch of updates *)




(** ** The relay: who receives *)

Lemma relayed_event_name (ev : ClientEvent) (u : User) :
  se_name (relayed_event ev u) = event_name (ce_data ev) ∧
  se_boardId (relayed_event ev u) = ce_boardId ev ∧
  se_data (relayed_event ev u) = ce_data ev.
Proof. unfold relayed_event. by destruct (ce_data ev). Qed.

Lemma elem_of_socket_to_emit sock room e rooms sid e' :
  (sid, e') ∈ socket_to_emit sock room e rooms ↔
  sid ∈ room_members rooms room ∧ sid ≠ sock_id sock ∧ e' = e.
Proof.
  unfold socket_to_emit. rewrite list_elem_of_fmap. split.
  - intros (s & Heq & Hs). injection Heq as -> ->.
    apply elem_of_elements, elem_of_difference in Hs as [Hin Hnot].
    rewrite elem_of_singleton in Hnot. done.
  - intros (Hin & Hne & ->). exists sid. split; [done|].
    apply elem_of_elements, elem_of_difference. by rewrite elem_of_singleton.
Qed.

Lemma NoDup_socket_to_emit sock room e rooms :
  NoDup (socket_to_emit sock room e rooms).
Proof.
  unfold socket_to_emit. apply NoDup_fmap_2; [|apply NoDup_elements].
  by intros s1 s2 [= ->].
Qed.

Lemma elem_of_on_relay (sock : Socket) (ev : ClientEvent) (srv : Server) sid e :
  (sid, e) ∈ (on_relay sock ev srv).2 ↔
  relay_allowed sock ev srv ∧
  sid ∈ room_members (srv_rooms srv) (room_name (ce_boardId ev)) ∧
  sid ≠ sock_id sock ∧
  e = relayed_event ev (sock_user sock).
Proof.
  unfold on_relay, relay_allowed, board_findFirst, connected.
  destruct (db_up (srv_db srv)); simpl.
  - destruct (board_access _ _ _) as [b|]; simpl.
    + rewrite elem_of_socket_to_emit. split; [intros (? & ? & ?)|intros (_ & ?)]; eauto.
    + rewrite elem_of_nil. split; [done|]. by intros [[_ [? ?]] _].
  - rewrite elem_of_nil. split; [done|]. by intros [[? _] _].
Qed.

(** C3.  A relayed event (card-moved, card-updated, comment-added,
    list-updated, lists-reordered) never comes back to the connection that
    sent it.  A socket receives the event exactly when the sender passes the
    access check, the socket is in the room of the event's board, and the
    socket is not the sender; it receives it once, and the server state is
    what it was. *)
Theorem relay_excludes_sender (sock : Socket) (ev : ClientEvent) (srv : Server) :
  (on_relay sock ev srv).1 = srv ∧
  NoDup (on_relay sock ev srv).2 ∧
  (∀ e, (sock_id sock, e) ∉ (on_relay sock ev srv).2) ∧
  (∀ sid e,
     (sid, e) ∈ (on_relay sock ev srv).2 ↔
     relay_allowed sock ev srv ∧
     sid ∈ room_members (srv_rooms srv) (room_name (ce_boardId ev)) ∧
     sid ≠ sock_id sock ∧
     e = relayed_event ev (sock_user sock)).
Proof.
  split_and!.
  - unfold on_relay. by destruct (board_findFirst _ _ _) as [? [[?|]|]].
  - unfold on_relay. destruct (board_findFirst _ _ _) as [? [[?|]|]]; simpl;
      [apply NoDup_socket_to_emit | apply NoDup_nil_2..].
  - intros e He. apply elem_of_on_relay in He. by destruct He as (_ & _ & ? & _).
  - apply elem_of_on_relay.
Qed.

(** In the demo, Alice's card-moved reaches Bob and nobody else. *)
Example relay_demo :
  fst <$> (on_relay Demo.sock1 (mkClientEvent "B" (CardMoved "C" "L" "L" 1000%Q)) Demo.srv0).2
  = ["s2"].
Proof. vm_compute. reflexivity. Qed.

(** ** Joining a room *)

Lemma on_join_board_silent (sock : Socket) (boardId : string) (srv : Server) :
  (on_join_board sock boardId srv).2 = [].
Proof.
  unfold on_join_board, join_board_settle.
  by destruct (join_board_lookup _ _ _) as [[?|]|].
Qed.

(** C4, as stated, fails: Carol has no access to board B, her join is
    dropped, and nothing is sent to her, no error either. *)
Lemma join_without_access_not_reported :
  board_access (srv_db Demo.srv0) (user_id (sock_user Demo.sock3)) "B" = None ∧
  ¬ join_reported Demo.sock3 "B" Demo.srv0.
Proof.
  split; [reflexivity|]. intros [e He].
  rewrite on_join_board_silent in He. by apply elem_of_nil in He.
Qed.

(** C4, amended.  A join-board by an authenticated connection never sends
    anything, to the requester or to anyone.  When the principal has no
    access to the board (neither owner nor member) the server state, room
    membership included, is what it was.  When the database is reachable
    and the principal is owner or member, the connection is added to the
    room of the board, and every other room keeps its members. *)
Theorem join_board_membership (sock : Socket) (boardId : string) (srv : Server) :
  (on_join_board sock boardId srv).2 = [] ∧
  srv_db (on_join_board sock boardId srv).1 = srv_db srv ∧
  (board_access (srv_db srv) (user_id (sock_user sock)) boardId = None →
     (on_join_board sock boardId srv).1 = srv) ∧
  (db_up (srv_db srv) = true →
   is_Some (board_access (srv_db srv) (user_id (sock_user sock)) boardId) →
     room_members (srv_rooms (on_join_board sock boardId srv).1) (room_name boardId)
       = {[sock_id sock]} ∪ room_members (srv_rooms srv) (room_name boardId) ∧
     ∀ room, room ≠ room_name boardId →
       room_members (srv_rooms (on_join_board sock boardId srv).1) room
         = room_members (srv_rooms srv) room).
Proof.
  split; [apply on_join_board_silent|].
  unfold on_join_board, join_board_settle, join_board_lookup, board_findFirst, connected.
  destruct (db_up (srv_db srv)); simpl.
  - destruct (board_access _ _ _) as [b|]; simpl.
    + split; [done|]. split; [done|]. intros _ _. unfold room_members, socket_join. split.
      * by rewrite lookup_insert_eq.
      * intros room Hne. by rewrite lookup_insert_ne.
    + split; [done|]. split; [done|]. by intros _ [? ?].
  - done.
Qed.

Lemma join_board_membership_witness :
  (on_join_board Demo.sock3 "B" Demo.srv0).1 = Demo.srv0 ∧
  room_members (srv_rooms (on_join_board Demo.sock4 "B" Demo.srv0).1) (room_name "B")
    = {[ "s4" ]} ∪ room_members (srv_rooms Demo.srv0) (room_name "B").
Proof.
  split.
  - destruct (join_board_membership Demo.sock3 "B" Demo.srv0) as (_ & _ & Hno & _).
    apply Hno. reflexivity.
  - destruct (join_board_membership Demo.sock4 "B" Demo.srv0) as (_ & _ & _ & Hyes).
    destruct Hyes as [Hroom _]; [reflexivity | by eexists | exact Hroom].
Defined.

(** ** The board page's listeners *)



Lemma relay_excludes_sender_witness :
  let ev := mkClientEvent "B" (CardMoved "C" "L" "L" 1000%Q) in
  ("s2", relayed_event ev Demo.alice) ∈ (on_relay Demo.sock1 ev Demo.srv0).2 ∧
  ("s1", relayed_event ev Demo.alice) ∉ (on_relay Demo.sock1 ev Demo.srv0).2.
Proof.
  intros ev.
  destruct (relay_excludes_sender Demo.sock1 ev Demo.srv0) as (_ & _ & Hself & Hrecv).
  split; [|apply (Hself (relayed_event ev Demo.alice))].
  apply Hrecv. split_and!; [split; [reflexivity|by eexists] | | discriminate | reflexivity].
  vm_compute. reflexivity.
Defined.


(** ** Drag and drop of a card *)

Lemma js_nth_Some {A} (a : list A) (i : nat) (x : A) :
  js_nth a i = Some x ↔ a !! i = Some x ∧ (Z.of_nat i < 2 ^ 32 - 1)%Z.
Proof.
  unfold js_nth. case_bool_decide as Hi.
  - split; [by intros ->|by intros [-> _]].
  - split; [done|by intros [_ ?]].
Qed.

Lemma vc_position_with_position (card : option ViewCard) (position : Q) :
  vc_position (with_position card position) = position.
Proof. by destruct card as [[c|p]|]. Qed.

Lemma renumber_lookup (cards : list (option ViewCard)) (i : nat) (v : ViewCard) :
  renumber cards !! i = Some v → vc_position v = index_key i.
Proof.
  unfold renumber. rewrite list_lookup_imap.
  destruct (cards !! i); simpl; [|done]. intros [= <-]. apply vc_position_with_position.
Qed.

(** The position a card move asks for is the index key of the place where
    the card was dropped, an index below 2^32 - 1: neighbours' keys play no
    part. *)
Lemma handleDragEnd_key board result cache cardId listId position :
  handleDragEnd board result = MoveCard cache cardId listId position →
  ∃ dest, destination result = Some dest ∧
          listId = droppableId dest ∧ position = index_key (index dest) ∧
          (Z.of_nat (index dest) < 2 ^ 32 - 1)%Z.
Proof.
  unfold handleDragEnd. destruct (destination result) as [dest|]; [|done].
  intros H. exists dest. split; [done|]. revert H.
  case_bool_decide as Hsame; simpl; [case_bool_decide; simpl; [done|]|];
    (case_bool_decide; simpl; [by destruct (mapM _ _)|]);
    (destruct (find_list _ _) as [sourceList|]; [|done]);
    (destruct (find_list _ _) as [destList|]; [|done]);
    case_bool_decide as Hlist; simpl;
    match goal with
    | |- context [js_nth ?l (index dest)] =>
        destruct (js_nth l (index dest)) as [c|] eqn:El; [|done]
    end;
    intros [= _ _ <- <-]; apply js_nth_Some in El as [El ?];
    apply renumber_lookup in El; done.
Qed.

Lemma serve_http_no_delivery (sock : Socket) (a : ClientAction) (srv : Server) :
  (∀ ev, a ≠ SocketEmit ev) → (serve sock a srv).2 = [].
Proof.
  intros Hne. destruct a as [cid body|body|b|b|ev]; simpl.
  - by destruct (put_card_move _ _ _ _).
  - by destruct (lists_router_put _ _ _ _).
  - rewrite <- (on_join_board_silent sock b srv). by destruct (on_join_board _ _ _).
  - done.
  - by destruct (Hne ev).
Qed.

(** No drag makes the server deliver anything on the sockets: the page
    sends the HTTP request only, and the routes do not emit. *)
Lemma drag_delivers_nothing sock board result srv :
  (drag sock board result srv).2 = [].
Proof.
  unfold drag.
  assert (∀ acts s, (∀ a ev, a ∈ acts → a ≠ SocketEmit ev) →
                    (serve_all sock acts s).2 = []) as Hall.
  { induction acts as [|a rest IH]; intros s Hacts; [done|]. simpl.
    pose proof (serve_http_no_delivery sock a s) as Ha.
    destruct (serve sock a s) as [[s1 r] ds1]. simpl in Ha.
    specialize (IH s1). destruct (serve_all sock rest s1) as [[s2 rs] ds2]. simpl in *.
    rewrite Ha, IH; [done| |].
    - intros a' ev Hin. apply Hacts. by right.
    - intros ev. apply Hacts. by left. }
  apply Hall. intros a ev Hin ->.
  destruct (handleDragEnd _ _); simpl in Hin;
    repeat (apply elem_of_cons in Hin as [?|Hin]; [done|]); by apply elem_of_nil in Hin.
Qed.

Lemma demo_keys_distinct : distinct_card_keys Demo.db0 "L".
Proof.
  intros i j c1 c2 Hij H1 H2 _ _. simpl in H1, H2.
  apply lookup_insert_Some in H1 as [[<- <-]|[? H1]];
    apply lookup_insert_Some in H2 as [[<- <-]|[? H2]];
    try apply lookup_singleton_Some in H1 as [<- <-];
    try apply lookup_singleton_Some in H2 as [<- <-]; try done.
Qed.

(** C1, evaluated where it breaks.  List L holds A (1000) and C (2000),
    with different keys.  The user drops C at index 0.  The page shows
    [C (1000); A (2000)], asks the server for position 1000 for C only, the
    server answers 200, and then A and C both have key 1000 in the table:
    the keys of L are not pairwise different any more. *)
Theorem within_list_move_ties :
  let '(srv', resps, _) := drag Demo.sock1 Demo.view0 Demo.dropC Demo.srv0 in
  distinct_card_keys (srv_db Demo.srv0) "L" ∧
  status <$> resps = [200%nat] ∧
  card_position <$> db_cards (srv_db srv') !! "A" = Some 1000%Q ∧
  card_position <$> db_cards (srv_db srv') !! "C" = Some 1000%Q ∧
  ¬ distinct_card_keys (srv_db srv') "L".
Proof.
  destruct (drag _ _ _ _) as [[srv' resps] ds] eqn:E.
  vm_compute in E. injection E as <- <- <-.
  split; [apply demo_keys_distinct|]. split; [reflexivity|].
  split; [reflexivity|]. split; [reflexivity|].
  intros H. apply (H "A" "C" (mkCard "A" "Card A" "L" 1000%Q) (mkCard "C" "Card C" "L" 1000%Q));
    done.
Qed.

(** C2, evaluated.  With L = [A (1000); C (2000)], dropping C at index 0
    makes the page ask for position [(0 + 1) * 1000] = 1000 for C, not 500;
    the optimistic view is [C (1000); A (2000)], and what is stored after
    the request is C with 1000 next to A with 1000. *)
Theorem move_to_front_key :
  handleDragEnd (Some Demo.view0) Demo.dropC
  = MoveCard [mkListView "L" "Todo" 1000%Q
                [Full (mkCard "C" "Card C" "L" 1000%Q); Full (mkCard "A" "Card A" "L" 2000%Q)];
              mkListView "L2" "Doing" 2000%Q []]
             "C" "L" 1000%Q ∧
  ¬ (1000 == 500)%Q ∧
  let d' := srv_db (drag Demo.sock1 Demo.view0 Demo.dropC Demo.srv0).1.1 in
  db_cards d' !! "C" = Some (mkCard "C" "Card C" "L" 1000%Q) ∧
  db_cards d' !! "A" = Some (mkCard "A" "Card A" "L" 1000%Q).
Proof.
  split; [vm_compute; reflexivity|]. split; [done|].
  vm_compute. done.
Qed.

(** C5, evaluated.  Alice (socket s1) and Bob (socket s2) are both in the
    room of board B.  Alice drops card C at index 0; the move is stored and
    answered 200; no socket receives anything, Bob's neither: no card-moved
    is emitted by the page or by the route. *)
Theorem move_reaches_no_peer :
  room_members (srv_rooms Demo.srv0) (room_name "B") = {[ "s1"; "s2" ]} ∧
  let '(srv', resps, deliveries) := drag Demo.sock1 Demo.view0 Demo.dropC Demo.srv0 in
  resps = [Json 200 (PCard (mkCard "C" "Card C" "L" 1000%Q))] ∧
  db_cards (srv_db srv') !! "C" = Some (mkCard "C" "Card C" "L" 1000%Q) ∧
  deliveries = [].
Proof.
  split.
  - apply set_eq. intros x. vm_compute. set_solver.
  - pose proof (drag_delivers_nothing Demo.sock1 Demo.view0 Demo.dropC Demo.srv0) as Hnone.
    destruct (drag _ _ _ _) as [[srv' resps] ds] eqn:E. simpl in Hnone. subst ds.
    vm_compute in E. injection E as <- <-. done.
Qed.

(** * Further properties *)

(** ** Pagination *)

Lemma validated_limit (ql : JsInt) :
  ∃ l, js_min 100 (js_max 1 (js_or ql 10)) = JFin l ∧ (1 ≤ l ≤ 100)%Z.
Proof. destruct ql as [| |[|z|z]|]; simpl; eexists; (split; [reflexivity|lia]). Qed.

(** Whatever the query holds, the validated limit is an integer from 1 to
    100, the page is an integer from 1 on or +Infinity (never NaN, never
    below 1), the sort order is asc or desc, the sort field is not empty,
    and the offset computed from them is a non-negative integer or
    +Infinity.  A missing, unreadable or zero page is page 1, a missing,
    unreadable or zero limit is 10. *)
Theorem validatePaginationParams_bounds (q : PaginationQuery) :
  let p := validatePaginationParams q in
  (∃ l, limit p = JFin l ∧ (1 ≤ l ≤ 100)%Z) ∧
  (page p = JPosInf ∨ ∃ n, page p = JFin n ∧ (1 ≤ n)%Z) ∧
  (sortOrder p = "asc" ∨ sortOrder p = "desc") ∧
  sortBy p ≠ "" ∧
  (skip (getPrismaSkipTake (page p) (limit p)) = JPosInf ∨
   ∃ s, skip (getPrismaSkipTake (page p) (limit p)) = JFin s ∧ (0 ≤ s)%Z) ∧
  (q_page q = JNaN ∨ q_page q = JFin 0 → page p = JFin 1) ∧
  (q_limit q = JNaN ∨ q_limit q = JFin 0 → limit p = JFin 10).
Proof.
  destruct q as [qp ql sb so]. simpl.
  destruct (validated_limit ql) as (l & El & Hl).
  assert (js_max 1 (js_or qp 1) = JPosInf ∨
          ∃ n, js_max 1 (js_or qp 1) = JFin n ∧ (1 ≤ n)%Z) as Hp.
  { destruct qp as [| |[|z|z]|]; simpl; eauto; right; eexists; (split; [reflexivity|lia]). }
  split_and!.
  - eauto.
  - exact Hp.
  - case_bool_decide; auto.
  - destruct sb as [s|]; [case_bool_decide|]; done.
  - unfold getPrismaSkipTake. simpl. rewrite El.
    destruct Hp as [->|(n & -> & Hn)]; simpl.
    + left. rewrite bool_decide_eq_false_2 by lia.
      by rewrite (bool_decide_eq_true_2 (0 < l)%Z) by lia.
    + right. eexists. split; [reflexivity|nia].
  - by intros [->| ->].
  - by intros [->| ->].
Qed.

Lemma ceil_div_bounds (total l : Z) :
  (1 ≤ l)%Z →
  ((- ((- total) / l) - 1) * l < total ≤ - ((- total) / l) * l)%Z.
Proof.
  intros Hl. pose proof (Z.mul_div_le (- total) l ltac:(lia)).
  pose proof (Z.mul_succ_div_gt (- total) l ltac:(lia)). nia.
Qed.

(** For a count [total] of at least 0, an integer page and a limit of at
    least 1: the data is passed through; the number of pages [n] is the
    least one with [total ≤ n * limit]; [hasNext] holds exactly when rows
    remain after this page ([page * limit < total]); [hasPrev] holds exactly
    when the page is past the first. *)
Theorem createPaginationResponse_meta {T} (data : list T) (count p l : Z) :
  (0 ≤ count)%Z → (1 ≤ l)%Z →
  (createPaginationResponse data count (JFin p) (JFin l)).1 = data ∧
  let pg := (createPaginationResponse data count (JFin p) (JFin l)).2 in
  total pg = count ∧
  (∃ n, totalPages pg = JFin n ∧ (0 ≤ n)%Z ∧ ((n - 1) * l < count ≤ n * l)%Z) ∧
  (hasNext pg = true ↔ (p * l < count)%Z) ∧
  (hasPrev pg = true ↔ (1 < p)%Z).
Proof.
  intros Hc Hl. split; [done|]. simpl. split; [done|].
  rewrite bool_decide_eq_false_2 by lia.
  pose proof (ceil_div_bounds count l Hl) as Hn. split_and!.
  - eexists. split; [reflexivity|]. split; [nia|done].
  - simpl. rewrite bool_decide_eq_true. split; intros; nia.
  - by rewrite bool_decide_eq_true.
Qed.

Lemma createPaginationResponse_meta_witness :
  let pg := (createPaginationResponse ["a"; "b"; "c"] 23 (JFin 2) (JFin 10)).2 in
  totalPages pg = JFin 3 ∧ hasNext pg = true ∧ hasPrev pg = true.
Proof.
  destruct (createPaginationResponse_meta ["a"; "b"; "c"] 23 2 10) as (_ & _ & _ & Hn & Hp);
    [lia | lia |].
  split; [reflexivity|]. split; [apply Hn; lia | apply Hp; lia].
Defined.

(** ** The activity log of a board, page by page *)





(** The first page of that log with limit 2, evaluated. *)
Example board_activities_first_page :
  (get_board_activities "u2" "B" (mkPaginationQuery JNaN (JFin 2) None None)
     (set_activities (λ _, [mkActivity "card_created" "A" "B" "u1";
                            mkActivity "card_created" "C" "B" "u1";
                            mkActivity "card_moved" "C" "B" "u2"]) Demo.db0)).2
  = Ok (ActivitiesPage
          [mkActivity "card_moved" "C" "B" "u2"; mkActivity "card_created" "C" "B" "u1"]
          (mkPagination (JFin 1) (JFin 2) 3 (JFin 2) true false)).
Proof. vm_compute. reflexivity. Qed.

(** ** Rooms: leaving, and who can be in a room *)

Lemma room_name_inj (b b' : string) : room_name b = room_name b' → b = b'.
Proof. unfold room_name. intros H. cbn in H. by injection H. Qed.

Lemma difference_absent (m : gset string) (sid : string) :
  sid ∉ m → m ∖ {[sid]} = m.
Proof.
  intros Hnot. apply set_eq. intros x. rewrite elem_of_difference, elem_of_singleton.
  split; [by intros [? _]|]. intros Hx. split; [done|]. by intros ->.
Qed.

Lemma union_difference_absent (m : gset string) (sid : string) :
  sid ∉ m → ({[sid]} ∪ m) ∖ {[sid]} = m.
Proof.
  intros Hnot. apply set_eq. intros x.
  rewrite elem_of_difference, elem_of_union, elem_of_singleton.
  split; [by intros [[?|?] ?]|]. intros Hx. split; [by right|]. by intros ->.
Qed.

Lemma room_members_socket_join sid room rooms r :
  room_members (socket_join sid room rooms) r
  = if decide (r = room) then {[sid]} ∪ room_members rooms room else room_members rooms r.
Proof.
  unfold room_members, socket_join. case_decide as Hr.
  - subst r. by rewrite lookup_insert_eq.
  - by rewrite lookup_insert_ne.
Qed.

Lemma room_members_socket_leave sid room rooms r :
  room_members (socket_leave sid room rooms) r
  = if decide (r = room) then room_members rooms room ∖ {[sid]} else room_members rooms r.
Proof.
  unfold room_members, socket_leave. destruct (rooms !! room) as [m|] eqn:Em.
  - case_decide as Hempty; case_decide as Hr; try subst r; simpl.
    + by rewrite lookup_delete_eq, Hempty.
    + by rewrite lookup_delete_ne.
    + by rewrite lookup_insert_eq.
    + by rewrite lookup_insert_ne.
  - case_decide as Hr; [|done]. subst r. rewrite Em. simpl.
    apply set_eq. intros x. rewrite elem_of_difference. split; [done|by intros [? _]].
Qed.

(** Leaving a room needs no access and works with the database down: the
    socket is taken out of the board's room and nothing else changes, no
    other room and no other member; nothing is sent.  Leaving a room one is
    not in changes no membership.  After leaving, no relay for that board,
    by whomever, reaches the socket. *)
Theorem leave_board_membership (sock : Socket) (boardId : string) (srv : Server) :
  let srv' := (on_leave_board sock boardId srv).1 in
  (on_leave_board sock boardId srv).2 = [] ∧
  srv_db srv' = srv_db srv ∧
  room_members (srv_rooms srv') (room_name boardId)
    = room_members (srv_rooms srv) (room_name boardId) ∖ {[sock_id sock]} ∧
  (∀ room, room ≠ room_name boardId →
     room_members (srv_rooms srv') room = room_members (srv_rooms srv) room) ∧
  (sock_id sock ∉ room_members (srv_rooms srv) (room_name boardId) →
     ∀ room, room_members (srv_rooms srv') room = room_members (srv_rooms srv) room) ∧
  (∀ sender ev e, ce_boardId ev = boardId →
     (sock_id sock, e) ∉ (on_relay sender ev srv').2).
Proof.
  simpl. split_and!; try done.
  - rewrite room_members_socket_leave. by rewrite decide_True.
  - intros room Hne. rewrite room_members_socket_leave. by rewrite decide_False.
  - intros Hnot room. rewrite room_members_socket_leave. case_decide as Hr; [|done].
    subst room. by apply difference_absent.
  - intros sender ev e <- Hin. apply elem_of_on_relay in Hin as (_ & Hin & _).
    simpl in Hin. rewrite room_members_socket_leave, decide_True in Hin by done.
    apply elem_of_difference in Hin as [_ Hself]. apply Hself. by apply elem_of_singleton.
Qed.

Lemma leave_board_membership_witness :
  room_members (srv_rooms (on_leave_board Demo.sock2 "B" Demo.srv0).1) (room_name "B")
    = room_members (srv_rooms Demo.srv0) (room_name "B") ∖ {[ "s2" ]} ∧
  (∀ room, room_members (srv_rooms (on_leave_board Demo.sock3 "B" Demo.srv0).1) room
           = room_members (srv_rooms Demo.srv0) room).
Proof.
  split.
  - destruct (leave_board_membership Demo.sock2 "B" Demo.srv0) as (_ & _ & Hroom & _).
    exact Hroom.
  - destruct (leave_board_membership Demo.sock3 "B" Demo.srv0) as (_ & _ & _ & _ & Hnot & _).
    apply Hnot. vm_compute. discriminate.
Defined.

(** A socket that is not in a board's room sends a join and then a leave
    for it.  When the leave is handled after the join has settled, every
    room is left with the members it had, whether or not the join was
    accepted.  When the leave is handled while the lookup of the join is
    still pending, the join settles after it: with the database reachable
    and access to the board the socket ends up in the room, although its
    last message was the leave; every other room keeps its members.  The
    database is not touched either way. *)
Theorem join_then_leave (sock : Socket) (boardId : string) (srv : Server) :
  sock_id sock ∉ room_members (srv_rooms srv) (room_name boardId) →
  (let srv' := (on_leave_board sock boardId (on_join_board sock boardId srv).1).1 in
   srv_db srv' = srv_db srv ∧
   ∀ room, room_members (srv_rooms srv') room = room_members (srv_rooms srv) room) ∧
  (let pending := join_board_lookup sock boardId srv in
   let srv' := (join_board_settle sock boardId pending (on_leave_board sock boardId srv).1).1 in
   srv_db srv' = srv_db srv ∧
   (∀ room, room ≠ room_name boardId →
      room_members (srv_rooms srv') room = room_members (srv_rooms srv) room) ∧
   (db_up (srv_db srv) = true →
    is_Some (board_access (srv_db srv) (user_id (sock_user sock)) boardId) →
    room_members (srv_rooms srv') (room_name boardId)
      = {[sock_id sock]} ∪ room_members (srv_rooms srv) (room_name boardId))).
Proof.
  intros Hnot. split.
  - simpl. unfold on_join_board, join_board_settle.
    destruct (join_board_lookup _ _ _) as [[b|]|]; simpl; (split; [done|]); intros room;
      rewrite room_members_socket_leave;
      destruct (decide (room = room_name boardId)) as [->|Hne];
      rewrite ?room_members_socket_join, ?decide_True, ?decide_False by done;
      try done; by (apply union_difference_absent || apply difference_absent).
  - simpl. unfold join_board_settle, join_board_lookup, board_findFirst, connected.
    destruct (db_up (srv_db srv)); simpl.
    + destruct (board_access _ _ _) as [b|]; simpl; (split; [done|]); split.
      * intros room Hne.
        by rewrite room_members_socket_join, decide_False, room_members_socket_leave,
          decide_False.
      * intros _ _.
        rewrite room_members_socket_join, decide_True, room_members_socket_leave,
          decide_True by done.
        by rewrite difference_absent.
      * intros room Hne. by rewrite room_members_socket_leave, decide_False.
      * by intros _ [? ?].
    + split; [done|]. split; [|done].
      intros room Hne. by rewrite room_members_socket_leave, decide_False.
Qed.

Lemma join_then_leave_witness :
  room_members
    (srv_rooms (on_leave_board Demo.sock4 "B" (on_join_board Demo.sock4 "B" Demo.srv0).1).1)
    (room_name "B")
  = room_members (srv_rooms Demo.srv0) (room_name "B") ∧
  room_members
    (srv_rooms (join_board_settle Demo.sock4 "B" (join_board_lookup Demo.sock4 "B" Demo.srv0)
                  (on_leave_board Demo.sock4 "B" Demo.srv0).1).1)
    (room_name "B")
  = {[ "s4" ]} ∪ room_members (srv_rooms Demo.srv0) (room_name "B").
Proof.
  destruct (join_then_leave Demo.sock4 "B" Demo.srv0) as [[_ Hrooms] (_ & _ & Hrace)];
    [vm_compute; discriminate|].
  split; [exact (Hrooms (room_name "B"))|].
  apply Hrace; [reflexivity|by eexists].
Defined.

Lemma board_access_boards (d d' : Db) (uid bid : string) :
  db_boards d' = db_boards d → board_access d' uid bid = board_access d uid bid.
Proof. unfold board_access. by intros ->. Qed.

Lemma put_card_move_boards uid cid body d :
  db_boards (put_card_move uid cid body d).1 = db_boards d.
Proof.
  unfold put_card_move, card_findFirst, list_findFirst, card_update, activity_create.
  run_prisma. destruct (isNumeric _); simpl; [|done].
  destruct (db_up d) eqn:Hup; simpl; [|done].
  destruct (card_access d uid cid) as [[c l]|]; simpl;
    destruct (list_access d uid (mb_listId body)); simpl; rewrite ?Hup; simpl; try done.
  destruct (db_cards d !! cid); simpl; [|done]. by rewrite Hup.
Qed.

Lemma put_list_boards uid lid body d :
  db_boards (put_list uid lid body d).1 = db_boards d.
Proof.
  unfold put_list, list_findFirst, list_update_data.
  run_prisma. destruct (_ || _); simpl; [done|].
  destruct (db_up d) eqn:Hup; simpl; [|done].
  destruct (list_access d uid lid); simpl; [|done]. rewrite Hup.
  by destruct (db_lists d !! lid).
Qed.

Lemma board_findFirst_Some uid bid d d' b :
  board_findFirst uid bid d = (d', Ok (Some b)) → board_access d uid bid = Some b.
Proof. unfold board_findFirst, connected. destruct (db_up d); by intros [= _ ->]. Qed.

(** One action keeps the rooms authorized and delivers to authorized
    sockets only. *)
Lemma serve_rooms_authorized users sock a srv :
  users !! sock_id sock = Some (sock_user sock) →
  rooms_authorized users srv →
  rooms_authorized users (serve sock a srv).1.1 ∧
  db_boards (srv_db (serve sock a srv).1.1) = db_boards (srv_db srv) ∧
  ∀ sid e, (sid, e) ∈ (serve sock a srv).2 →
    ∃ u, users !! sid = Some u ∧
         is_Some (board_access (srv_db srv) (user_id u) (se_boardId e)).
Proof.
  intros Hsock Hinv. destruct a as [cid body|body|b0|b0|ev]; simpl.
  - pose proof (put_card_move_boards (user_id (sock_user sock)) cid body (srv_db srv)) as Hb.
    destruct (put_card_move _ _ _ _) as [d' r]. simpl in *. split_and!; [|done|].
    + intros b sid Hin. destruct (Hinv b sid Hin) as (u & ? & ?). exists u.
      by rewrite (board_access_boards _ _ _ _ Hb).
    + intros sid e Hin. by apply elem_of_nil in Hin.
  - unfold lists_router_put.
    pose proof (put_list_boards (user_id (sock_user sock)) "reorder"
                  (mkListUpdateBody (lp_title (reorder_request body))
                     (lp_position (reorder_request body))) (srv_db srv)) as Hb.
    destruct (put_list _ _ _ _) as [d' r]. simpl in *. split_and!; [|done|].
    + intros b sid Hin. destruct (Hinv b sid Hin) as (u & ? & ?). exists u.
      by rewrite (board_access_boards _ _ _ _ Hb).
    + intros sid e Hin. by apply elem_of_nil in Hin.
  - unfold on_join_board, join_board_settle, join_board_lookup.
    destruct (board_findFirst _ _ _) as [d' [[b|]|]] eqn:Ejoin; simpl;
      (split_and!; [|done|by intros sid e Hin; apply elem_of_nil in Hin]); try done.
    apply board_findFirst_Some in Ejoin. intros b1 sid Hin. simpl in Hin.
    rewrite room_members_socket_join in Hin. case_decide as Hroom; [|by apply Hinv].
    apply room_name_inj in Hroom as ->.
    apply elem_of_union in Hin as [->%elem_of_singleton|Hin]; [|by apply Hinv].
    exists (sock_user sock). split; [done|]. by eexists.
  - split_and!; [|done|by intros sid e Hin; apply elem_of_nil in Hin].
    intros b sid Hin. simpl in Hin. rewrite room_members_socket_leave in Hin.
    case_decide as Hroom; [|by apply Hinv].
    apply room_name_inj in Hroom as ->. apply elem_of_difference in Hin as [Hin _].
    by apply Hinv.
  - pose proof (elem_of_on_relay sock ev srv) as Hrelay.
    assert ((on_relay sock ev srv).1 = srv) as Hsame.
    { unfold on_relay. by destruct (board_findFirst _ _ _) as [? [[?|]|]]. }
    destruct (on_relay sock ev srv) as [s ds]. simpl in *. subst s.
    split_and!; [done..|]. intros sid e Hin.
    apply Hrelay in Hin as (_ & Hin & _ & ->).
    destruct (relayed_event_name ev (sock_user sock)) as (_ & -> & _). by apply Hinv.
Qed.

(** Whatever the clients do (drag requests, joins, leaves, relays), from a
    server whose rooms hold authorized sockets only, in particular from
    one with no rooms: every member of a board's room stays the socket of a
    user with access to the board, the boards table is not touched, and
    every event that is delivered goes to the socket of a user with access
    to the event's board.  A user without access to a board gets none of
    its events. *)
Theorem run_rooms_authorized (users : gmap string User)
    (trace : list (Socket * ClientAction)) (srv : Server) :
  known_sockets users trace →
  rooms_authorized users srv →
  rooms_authorized users (run trace srv).1 ∧
  db_boards (srv_db (run trace srv).1) = db_boards (srv_db srv) ∧
  ∀ sid e, (sid, e) ∈ (run trace srv).2 →
    ∃ u, users !! sid = Some u ∧
         is_Some (board_access (srv_db srv) (user_id u) (se_boardId e)).
Proof.
  revert srv. induction trace as [|[sock a] rest IH]; intros srv Hknown Hinv.
  - split_and!; [done..|]. intros sid e Hin. by apply elem_of_nil in Hin.
  - simpl.
    destruct (serve_rooms_authorized users sock a srv) as (Hinv1 & Hb1 & Hd1);
      [by apply (Hknown sock a); left | done |].
    destruct (serve sock a srv) as [[s1 r1] ds1]. simpl in *.
    destruct (IH s1) as (Hinv2 & Hb2 & Hd2);
      [by intros s' a' Hin; apply (Hknown s' a'); right | done |].
    destruct (run rest s1) as [s2 ds2]. simpl in *.
    split_and!; [done | congruence |].
    intros sid e [Hin|Hin]%elem_of_app; [by apply Hd1|].
    destruct (Hd2 sid e Hin) as (u & ? & ?). exists u.
    by rewrite <- (board_access_boards _ _ _ _ Hb1).
Qed.

Lemma run_rooms_authorized_witness :
  let users : gmap string User :=
    <["s1" := Demo.alice]> (<["s2" := Demo.bob]> {[ "s3" := Demo.carol ]}) in
  let ev := mkClientEvent "B" (CardMoved "C" "L" "L" 1000%Q) in
  let trace := [(Demo.sock1, SocketJoin "B"); (Demo.sock3, SocketJoin "B");
                (Demo.sock2, SocketJoin "B"); (Demo.sock1, SocketEmit ev)] in
  (run trace (mkServer Demo.db0 ∅)).2 = [("s2", relayed_event ev Demo.alice)] ∧
  ∀ sid e, (sid, e) ∈ (run trace (mkServer Demo.db0 ∅)).2 →
    ∃ u, users !! sid = Some u ∧
         is_Some (board_access Demo.db0 (user_id u) (se_boardId e)).
Proof.
  intros users ev trace. split; [vm_compute; reflexivity|].
  apply (run_rooms_authorized users trace (mkServer Demo.db0 ∅)).
  - intros sock a Hin. unfold trace in Hin.
    repeat (apply elem_of_cons in Hin as [Heq|Hin]; [by injection Heq as -> _|]).
    by apply elem_of_nil in Hin.
  - intros b sid Hin. unfold room_members in Hin. simpl in Hin.
    rewrite lookup_empty in Hin. by apply elem_of_empty in Hin.
Defined.

(** ** Routes: access, and what a request leaves alone *)

Lemma stranger_list_access d uid lid : stranger d uid → list_access d uid lid = None.
Proof.
  intros Hs. unfold list_access. destruct (db_lists d !! lid); [|done]. by rewrite Hs.
Qed.

Lemma stranger_card_access d uid cid : stranger d uid → card_access d uid cid = None.
Proof.
  intros Hs. unfold card_access. destruct (db_cards d !! cid); [|done].
  by rewrite stranger_list_access.
Qed.

(** A user who is owner or member of no board changes nothing and reads no
    card: each of the routes POST /cards, PUT /cards/:id/move, PUT
    /cards/:id, GET /cards/:id, POST /lists and PUT /lists/:id, and the
    handler written for PUT /lists/reorder, answers such a user with an
    error status (400, 403, 404 or 500) and leaves the database as it
    was. *)
Theorem stranger_changes_nothing (d : Db) (uid : string) :
  stranger d uid →
  ∀ r,
    (∃ newId body, r = post_card uid newId body d) ∨
    (∃ cid body, r = put_card_move uid cid body d) ∨
    (∃ cid title, r = put_card uid cid title d) ∨
    (∃ cid, r = get_card uid cid d) ∨
    (∃ newId body, r = post_list uid newId body d) ∨
    (∃ lid body, r = put_list uid lid body d) ∨
    (∃ body, r = put_lists_reorder uid body d) →
    r.1 = d ∧ ∃ resp, answer r = Some resp ∧ (400 ≤ status resp)%nat.
Proof.
  intros Hs r Hr.
  pose proof (λ lid, stranger_list_access d uid lid Hs) as Hl.
  pose proof (λ cid, stranger_card_access d uid cid Hs) as Hc.
  unfold stranger in Hs. unfold answer.
  assert (∀ e : string, ∃ resp, Some (Json 400 (PError e)) = Some resp ∧ (400 ≤ status resp)%nat)
    as H400 by (intros e; eexists; split; [reflexivity|simpl; lia]).
  destruct Hr as [(newId & body & ->)|[(cid & body & ->)|[(cid & title & ->)|[(cid & ->)|
                 [(newId & body & ->)|[(lid & body & ->)|(body & ->)]]]]]];
    unfold post_card, put_card_move, put_card, get_card, post_list, put_list,
      put_lists_reorder, card_findFirst, list_findFirst, board_findFirst;
    run_prisma;
    try (destruct (rb_listIds body); simpl; [split; [reflexivity|apply H400]|]);
    try (destruct (_ || _); simpl; [split; [reflexivity|apply H400]|]);
    try (destruct (negb _); simpl; [split; [reflexivity|apply H400]|]);
    try (case_bool_decide; simpl; [split; [reflexivity|apply H400]|]);
    destruct (db_up d) eqn:Hup; repeat (simpl; rewrite ?Hl, ?Hc, ?Hs, ?Hup);
    (split; [reflexivity|eexists; split; [reflexivity|simpl; lia]]).
Qed.

Lemma stranger_changes_nothing_witness :
  (put_card_move "u3" "C" (mkMoveBody "L" 500%Q) Demo.db0).1 = Demo.db0 ∧
  ∃ resp, answer (put_card_move "u3" "C" (mkMoveBody "L" 500%Q) Demo.db0) = Some resp ∧
          (400 ≤ status resp)%nat.
Proof.
  apply (stranger_changes_nothing Demo.db0 "u3").
  - intros bid. unfold board_access. simpl.
    destruct (decide (bid = "B")) as [->|Hne]; [reflexivity|].
    by rewrite lookup_singleton_ne.
  - right. left. by eexists _, _.
Defined.







Lemma list_access_lookup (d : Db) (uid lid : string) (l : BList) :
  list_access d uid lid = Some l → db_lists d !! lid = Some l.
Proof.
  unfold list_access. destruct (db_lists d !! lid) as [l0|]; [|done].
  destruct (board_access d uid (list_boardId l0)); [|done]. by intros [= ->].
Qed.

(** Editing a card never moves it.  Whatever the request and its outcome,
    PUT /cards/:id leaves the lists and boards tables alone, adds and
    removes no card, and every card keeps its id, its list and its
    position.  With the database reachable, access to the card and a title
    that is absent or not blank, the answer is 200, the stored title is the
    trimmed title sent (the old one when none is sent), and one
    card_updated activity is logged for the card's board. *)
Theorem put_card_never_moves (uid cid : string) (title : option string) (d : Db) :
  let d' := (put_card uid cid title d).1 in
  db_lists d' = db_lists d ∧
  db_boards d' = db_boards d ∧
  (∀ id, (λ c, (card_id c, card_listId c, card_position c)) <$> db_cards d' !! id
         = (λ c, (card_id c, card_listId c, card_position c)) <$> db_cards d !! id) ∧
  (db_up d = true →
   ∀ c l, card_access d uid cid = Some (c, l) → trim <$> title ≠ Some "" →
     let c' := mkCard (card_id c) (default (card_title c) (trim <$> title))
                      (card_listId c) (card_position c) in
     answer (put_card uid cid title d) = Some (Json 200 (PCard c')) ∧
     db_cards d' = <[cid := c']> (db_cards d) ∧
     db_activities d'
       = db_activities d ++ [mkActivity "card_updated" (card_id c) (list_boardId l) uid]).
Proof.
  unfold put_card, card_findFirst, card_update_data, activity_create, answer.
  run_prisma. case_bool_decide as Ht; simpl.
  { split_and!; try done; by intros _ c l _ ?. }
  destruct (db_up d) eqn:Hup; simpl; [|done].
  destruct (card_access d uid cid) as [[c l]|] eqn:Hc; simpl.
  2: { split_and!; try done. }
  rewrite Hup, (card_access_lookup _ _ _ _ _ Hc). repeat (simpl; rewrite ?Hup).
  split_and!; try done.
  - intros id. destruct (decide (cid = id)) as [<-|Hne].
    + by rewrite lookup_insert_eq, (card_access_lookup _ _ _ _ _ Hc).
    + by rewrite lookup_insert_ne.
  - intros _ c0 l0 [= <- <-] _. done.
Qed.

Lemma put_card_never_moves_witness :
  answer (put_card "u2" "C" (Some "  Ship it ") Demo.db0)
    = Some (Json 200 (PCard (mkCard "C" "Ship it" "L" 2000%Q))) ∧
  db_cards (put_card "u2" "C" (Some "  Ship it ") Demo.db0).1
    = <["C" := mkCard "C" "Ship it" "L" 2000%Q]> (db_cards Demo.db0).
Proof.
  destruct (put_card_never_moves "u2" "C" (Some "  Ship it ") Demo.db0) as (_ & _ & _ & Hok).
  destruct (Hok eq_refl Demo.cardC (mkBList "L" "Todo" "B" 1000%Q) eq_refl) as (Ha & Hc & _);
    [vm_compute; discriminate|].
  split; [exact Ha | exact Hc].
Defined.

(** PUT /lists/:id stores what it is sent.  Whatever the request and its
    outcome, no card, board or activity changes, no other list changes, and
    the list keeps its id and its board.  A title that is sent and blank,
    or a position that is sent and that [isNumeric] refuses, is answered 400
    and nothing is written.  Else, with the database reachable and access
    to the list, the answer is 200 and the row holds the position as sent
    (the old one when none is sent), and the trimmed title sent (the old one
    when none is sent); no sibling key is looked at. *)
Theorem put_list_stores_request (uid lid : string) (body : ListUpdateBody) (d : Db) :
  let d' := (put_list uid lid body d).1 in
  db_cards d' = db_cards d ∧
  db_boards d' = db_boards d ∧
  db_activities d' = db_activities d ∧
  (∀ id, id ≠ lid → db_lists d' !! id = db_lists d !! id) ∧
  ((λ l, (list_id l, list_boardId l)) <$> db_lists d' !! lid
     = (λ l, (list_id l, list_boardId l)) <$> db_lists d !! lid) ∧
  (trim <$> lu_title body = Some "" ∨ optional_isNumeric (lu_position body) = false →
     put_list uid lid body d = (d, Ok (Json 400 (PError "Validation failed")))) ∧
  (db_up d = true →
   ∀ l, list_access d uid lid = Some l →
     trim <$> lu_title body ≠ Some "" → optional_isNumeric (lu_position body) = true →
     let l' := mkBList (list_id l) (default (list_title l) (trim <$> lu_title body))
                       (list_boardId l) (default (list_position l) (lu_position body)) in
     answer (put_list uid lid body d) = Some (Json 200 (PList l')) ∧
     db_lists d' !! lid = Some l').
Proof.
  unfold put_list, list_findFirst, list_update_data, answer.
  run_prisma.
  destruct (bool_decide (trim <$> lu_title body = Some "")
            || negb (optional_isNumeric (lu_position body))) eqn:Hv; simpl.
  { apply orb_true_iff in Hv as [Hv%bool_decide_eq_true|Hv%negb_true_iff];
      (split_and!; try done); intros _ l _ ? ?; congruence. }
  apply orb_false_iff in Hv as [Ht%bool_decide_eq_false Hn%negb_false_iff].
  destruct (db_up d) eqn:Hup; simpl; [|split_and!; try done; intros [?|?]; congruence].
  destruct (list_access d uid lid) as [l|] eqn:Hl; simpl.
  2: { split_and!; try done. intros [?|?]; congruence. }
  rewrite Hup, (list_access_lookup _ _ _ _ Hl). repeat (simpl; rewrite ?Hup).
  split_and!; try done.
  - intros id Hne. by rewrite lookup_insert_ne.
  - by rewrite lookup_insert_eq.
  - intros [?|?]; congruence.
  - intros _ l0 [= <-] _ _. by rewrite lookup_insert_eq.
Qed.

Lemma put_list_stores_request_witness :
  (answer (put_list "u2" "L2" (mkListUpdateBody None (Some 1000%Q)) Demo.db0)
     = Some (Json 200 (PList (mkBList "L2" "Doing" "B" 1000%Q))) ∧
   db_lists (put_list "u2" "L2" (mkListUpdateBody None (Some 1000%Q)) Demo.db0).1 !! "L2"
     = Some (mkBList "L2" "Doing" "B" 1000%Q)) ∧
  put_list "u2" "L2" (mkListUpdateBody None (Some (inject_Z (10 ^ 21)))) Demo.db0
    = (Demo.db0, Ok (Json 400 (PError "Validation failed"))).
Proof.
  split.
  - destruct (put_list_stores_request "u2" "L2" (mkListUpdateBody None (Some 1000%Q)) Demo.db0)
      as (_ & _ & _ & _ & _ & _ & Hok).
    apply (Hok eq_refl (mkBList "L2" "Doing" "B" 2000%Q) eq_refl); [discriminate|reflexivity].
  - destruct (put_list_stores_request "u2" "L2"
                (mkListUpdateBody None (Some (inject_Z (10 ^ 21)))) Demo.db0)
      as (_ & _ & _ & _ & _ & Hbad & _).
    apply Hbad. right. reflexivity.
Defined.

(** ** Drag and drop: what the page asks for and what it shows *)

Section Splice.
Context {A : Type}.
Implicit Types (a : list A) (x : A) (i : nat).

Lemma splice_in_length i x a : length (splice_in i x a) = S (length a).
Proof.
  unfold splice_in. rewrite length_app. simpl.
  rewrite length_take, length_drop. lia.
Qed.

Lemma splice_in_Permutation i x a : splice_in i x a ≡ₚ x :: a.
Proof. unfold splice_in. by rewrite <- Permutation_middle, take_drop. Qed.

Lemma splice_in_lookup i x a : splice_in i x a !! (i `min` length a) = Some x.
Proof. unfold splice_in. apply list_lookup_middle. by rewrite length_take. Qed.

Lemma splice_in_delete i x a : delete (i `min` length a) (splice_in i x a) = a.
Proof.
  unfold splice_in. rewrite <- (length_take a i), delete_middle. apply take_drop.
Qed.

(** The element at the very index of the insertion: the inserted one when
    the index is within the array, none when it is past the end. *)
Lemma splice_in_lookup_at i x a :
  splice_in i x a !! i = if bool_decide (i ≤ length a)%nat then Some x else None.
Proof.
  case_bool_decide as Hi.
  - pose proof (splice_in_lookup i x a) as Hx. by rewrite Nat.min_l in Hx by lia.
  - apply lookup_ge_None_2. rewrite splice_in_length. lia.
Qed.
End Splice.

Lemma splice_in_fmap {A B} (f : A → B) (i : nat) (x : A) (a : list A) :
  f <$> splice_in i x a = splice_in i (f x) (f <$> a).
Proof. unfold splice_in. by rewrite fmap_app, fmap_cons, fmap_take, fmap_drop. Qed.

Lemma mapM_fmap_Some_all {A B} (f : A → B) (l : list A) :
  mapM (fmap (M := option) f) (Some <$> l) = Some (f <$> l).
Proof. apply mapM_Some. induction l as [|x l IH]; constructor; done. Qed.

Lemma mapM_fmap_undefined {A B} (f : A → B) (l : list (option A)) :
  None ∈ l → mapM (fmap (M := option) f) l = None.
Proof.
  intros Hin. apply mapM_None. apply Exists_exists. exists None. by split.
Qed.

(** The request of a list drag. *)
Lemma handleDragEnd_list (board : BoardView) (result : DropResult) (dest : Location)
    (l : ListView) :
  type result = "list" →
  destination result = Some dest →
  ¬ (droppableId dest = droppableId (source result) ∧ index dest = index (source result)) →
  bv_lists board !! index (source result) = Some l →
  handleDragEnd (Some board) result
  = ReorderLists (lv_id <$> splice_in (index dest) l
                              (delete (index (source result)) (bv_lists board))).
Proof.
  intros Ht Hd Hmoved Hl. unfold handleDragEnd. rewrite Hd.
  destruct (bool_decide _ && bool_decide _) eqn:Hsame.
  - apply andb_true_iff in Hsame as [?%bool_decide_eq_true ?%bool_decide_eq_true].
    by destruct Hmoved.
  - rewrite bool_decide_eq_true_2 by done. simpl. unfold splice_out. rewrite Hl.
    by rewrite <- splice_in_fmap, mapM_fmap_Some_all.
Qed.

(** A list drag whose source index addresses no list of the view ends in a
    TypeError, and no request is made. *)
Lemma handleDragEnd_list_stale (board : option BoardView) (result : DropResult)
    (dest : Location) :
  type result = "list" →
  destination result = Some dest →
  ¬ (droppableId dest = droppableId (source result) ∧ index dest = index (source result)) →
  from_option bv_lists [] board !! index (source result) = None →
  handleDragEnd board result = Threw None.
Proof.
  intros Ht Hd Hmoved Hl. unfold handleDragEnd. rewrite Hd.
  destruct (bool_decide _ && bool_decide _) eqn:Hsame.
  - apply andb_true_iff in Hsame as [?%bool_decide_eq_true ?%bool_decide_eq_true].
    by destruct Hmoved.
  - rewrite bool_decide_eq_true_2 by done. simpl. unfold splice_out. rewrite Hl.
    rewrite mapM_fmap_undefined; [done|].
    eapply list_elem_of_lookup_2. apply splice_in_lookup.
Qed.

(** Dragging a list: the page asks for a reorder with the ids of all lists
    of the board view, each once more or less as before: the new sequence
    is a rearrangement of the old one, the dragged list stands at the drop
    index (at the end when the index is past it), and the other lists keep
    their order. *)
Theorem drag_list_reorders (board : BoardView) (result : DropResult) (dest : Location)
    (l : ListView) :
  type result = "list" →
  destination result = Some dest →
  ¬ (droppableId dest = droppableId (source result) ∧ index dest = index (source result)) →
  bv_lists board !! index (source result) = Some l →
  ∃ ids,
    handleDragEnd (Some board) result = ReorderLists ids ∧
    ids ≡ₚ lv_id <$> bv_lists board ∧
    let at_ := index dest `min` (length (bv_lists board) - 1) in
    ids !! at_ = Some (lv_id l) ∧
    delete at_ ids = delete (index (source result)) (lv_id <$> bv_lists board).
Proof.
  intros Ht Hd Hmoved Hl. eexists. split; [by apply handleDragEnd_list|].
  assert (length (delete (index (source result)) (bv_lists board))
          = length (bv_lists board) - 1) as Hlen by (apply length_delete; eauto).
  split.
  { rewrite splice_in_Permutation. by rewrite <- delete_Permutation. }
  simpl. rewrite <- Hlen. split.
  - by rewrite list_lookup_fmap, splice_in_lookup.
  - rewrite <- list_fmap_delete, splice_in_delete. apply list_fmap_delete.
Qed.

Lemma drag_list_reorders_witness :
  ∃ ids,
    handleDragEnd (Some Demo.view0)
      (mkDropResult (Some (mkLocation "board" 1)) (mkLocation "board" 0) "list")
      = ReorderLists ids ∧
    ids ≡ₚ ["L"; "L2"] ∧ ids !! 1%nat = Some "L".
Proof.
  destruct (drag_list_reorders Demo.view0
              (mkDropResult (Some (mkLocation "board" 1)) (mkLocation "board" 0) "list")
              (mkLocation "board" 1)
              (mkListView "L" "Todo" 1000%Q [Full Demo.cardA; Full Demo.cardC]))
    as (ids & Hreq & Hperm & Hat & _);
    [reflexivity | reflexivity | by intros [_ [=]] | reflexivity |].
  exists ids. split; [exact Hreq|]. split; [exact Hperm | exact Hat].
Defined.

(** A list drag, end to end: the order the page asks for is not stored.
    Whatever the drag, the server is left exactly as it was, tables and
    rooms, and nothing is delivered on the sockets.  With a source index
    that addresses a list of the view, the database reachable and no list
    with the id [reorder] within the user's reach (ids are generated), the
    page's reorder request is answered 404 by the handler of
    PUT /lists/:id. *)
Theorem drag_list_persists_nothing (sock : Socket) (board : BoardView)
    (result : DropResult) (srv : Server) :
  type result = "list" →
  (drag sock board result srv).1.1 = srv ∧
  (drag sock board result srv).2 = [] ∧
  (∀ dest l,
     destination result = Some dest →
     ¬ (droppableId dest = droppableId (source result) ∧
        index dest = index (source result)) →
     bv_lists board !! index (source result) = Some l →
     db_up (srv_db srv) = true →
     list_access (srv_db srv) (user_id (sock_user sock)) "reorder" = None →
     drag sock board result srv
     = (srv, [Json 404 (PError "List not found or insufficient permissions")], [])).
Proof.
  intros Ht. split; [|split; [apply drag_delivers_nothing|]].
  - unfold drag, handleDragEnd. destruct (destination result) as [dest|]; [|done].
    destruct (bool_decide _ && bool_decide _); [done|].
    rewrite bool_decide_eq_true_2 by done. simpl.
    destruct (mapM _ _) as [ids|]; [|done]. simpl.
    pose proof (put_list_empty_body (user_id (sock_user sock)) "reorder" (srv_db srv)) as Hd.
    unfold lists_router_put. simpl.
    destruct (put_list _ _ _ _) as [d' r]. simpl in *. subst d'. by destruct srv.
  - intros dest l Hd Hmoved Hl Hup Hnone. unfold drag.
    rewrite (handleDragEnd_list board result dest l Ht Hd Hmoved Hl). simpl.
    unfold lists_router_put. simpl. rewrite put_list_not_found by done. by destruct srv.
Qed.

Lemma drag_list_persists_nothing_witness :
  drag Demo.sock2 Demo.view0
    (mkDropResult (Some (mkLocation "board" 1)) (mkLocation "board" 0) "list") Demo.srv0
  = (Demo.srv0, [Json 404 (PError "List not found or insufficient permissions")], []).
Proof.
  destruct (drag_list_persists_nothing Demo.sock2 Demo.view0
              (mkDropResult (Some (mkLocation "board" 1)) (mkLocation "board" 0) "list")
              Demo.srv0 eq_refl) as (_ & _ & H404).
  apply (H404 (mkLocation "board" 1)
           (mkListView "L" "Todo" 1000%Q [Full Demo.cardA; Full Demo.cardC]));
    [reflexivity | by intros [_ [=]] | reflexivity | reflexivity | reflexivity].
Defined.

Lemma vc_id_with_position (card : option ViewCard) (position : Q) :
  vc_id (with_position card position) = from_option vc_id "undefined" card.
Proof. by destruct card as [[c|p]|]. Qed.

Lemma renumber_lookup_iff (cards : list (option ViewCard)) (i : nat) (v : ViewCard) :
  renumber cards !! i = Some v ↔ ∃ x, cards !! i = Some x ∧ v = with_position x (index_key i).
Proof.
  unfold renumber. rewrite list_lookup_imap. destruct (cards !! i) as [x|]; simpl.
  - split; [intros [= <-]; eauto|by intros (? & [= <-] & ->)].
  - split; [done|by intros (? & ? & _)].
Qed.

Lemma length_cards_after_drag src dest sourceList destList movedCard :
  (cards_after_drag src dest sourceList destList movedCard).2
  = splice_in (index dest) movedCard
      (if bool_decide (droppableId src = droppableId dest)
       then Some <$> delete (index src) (lv_cards sourceList)
       else Some <$> lv_cards destList) ∧
  length (if bool_decide (droppableId src = droppableId dest)
          then Some <$> delete (index src) (lv_cards sourceList)
          else Some <$> lv_cards destList : list (option ViewCard))
  = drop_room src dest sourceList destList.
Proof.
  unfold cards_after_drag, drop_room. case_bool_decide; by rewrite length_fmap.
Qed.

(** The card object the page reads back at the drop index. *)
Lemma js_nth_cards_after_drag src dest sourceList destList movedCard :
  js_nth (renumber (cards_after_drag src dest sourceList destList movedCard).2) (index dest)
  = if bool_decide ((index dest ≤ drop_room src dest sourceList destList)%nat ∧
                    (Z.of_nat (index dest) < 2 ^ 32 - 1)%Z)
    then Some (with_position movedCard (index_key (index dest)))
    else None.
Proof.
  destruct (length_cards_after_drag src dest sourceList destList movedCard) as [-> <-].
  unfold js_nth, renumber. rewrite list_lookup_imap, splice_in_lookup_at.
  repeat case_bool_decide; simpl; try done; tauto.
Qed.

(** A card drag, taken apart. *)
Lemma handleDragEnd_card (board : BoardView) (result : DropResult) (dest : Location)
    (sourceList destList : ListView) :
  destination result = Some dest →
  ¬ (droppableId dest = droppableId (source result) ∧ index dest = index (source result)) →
  type result ≠ "list" →
  find_list (bv_lists board) (droppableId (source result)) = Some sourceList →
  find_list (bv_lists board) (droppableId dest) = Some destList →
  let movedCard := lv_cards sourceList !! index (source result) in
  let after := cards_after_drag (source result) dest sourceList destList movedCard in
  let cache :=
    (λ l, if bool_decide (lv_id l = droppableId (source result))
          then mkListView (lv_id l) (lv_title l) (lv_position l) (renumber after.1)
          else if bool_decide (lv_id l = droppableId dest)
          then mkListView (lv_id l) (lv_title l) (lv_position l) (renumber after.2)
          else l) <$> bv_lists board in
  handleDragEnd (Some board) result
  = match js_nth (renumber after.2) (index dest) with
    | Some movedCardData =>
        MoveCard cache (vc_id movedCardData) (droppableId dest) (vc_position movedCardData)
    | None => Threw (Some cache)
    end.
Proof.
  intros Hd Hmoved Ht Hs Hdst. simpl. unfold handleDragEnd, cards_after_drag. rewrite Hd.
  destruct (bool_decide _ && bool_decide _) eqn:Hsame.
  { apply andb_true_iff in Hsame as [?%bool_decide_eq_true ?%bool_decide_eq_true].
    by destruct Hmoved. }
  rewrite (bool_decide_eq_false_2 _ Ht). simpl. rewrite Hs, Hdst. unfold splice_out.
  destruct (decide (droppableId (source result) = droppableId dest)) as [Hlist|Hlist];
    [rewrite !(bool_decide_eq_true_2 _ Hlist)|by rewrite !(bool_decide_eq_false_2 _ Hlist)].
  simpl.
  assert (∀ cards : list ViewCard,
            (λ l, if bool_decide (lv_id l = droppableId (source result))
                  then mkListView (lv_id l) (lv_title l) (lv_position l) cards
                  else l) <$> bv_lists board
            = (λ l, if bool_decide (lv_id l = droppableId (source result))
                    then mkListView (lv_id l) (lv_title l) (lv_position l) cards
                    else if bool_decide (lv_id l = droppableId dest)
                    then mkListView (lv_id l) (lv_title l) (lv_position l) cards
                    else l) <$> bv_lists board) as Hcache.
  { intros cards. apply list_fmap_ext. intros k l _. simpl. rewrite <- Hlist.
    by destruct (bool_decide (lv_id l = droppableId (source result))). }
  rewrite Hcache, <- Hlist. done.
Qed.

(** Dragging a card, in a view that holds the source and the destination
    list.  The page asks for a move exactly when the drop index is within
    the destination array (at most the number of cards it holds when the
    card is put in) and is an array index; else it stops with a TypeError,
    after it has written the cache, and asks for nothing.  The move names
    the list the card was dropped on and the index key of the drop index,
    [(index + 1) * 1000], which depends on the drop index alone, not on the
    key of any card, and which the move route's validator accepts.  It
    names the card at the source index of the source list; when the source
    index addresses no card (a view that changed under the drag), the
    request goes to the path of the card [undefined]. *)
Theorem drag_card_request (board : BoardView) (result : DropResult) (dest : Location)
    (sourceList destList : ListView) :
  destination result = Some dest →
  ¬ (droppableId dest = droppableId (source result) ∧ index dest = index (source result)) →
  type result ≠ "list" →
  find_list (bv_lists board) (droppableId (source result)) = Some sourceList →
  find_list (bv_lists board) (droppableId dest) = Some destList →
  let movedCard := lv_cards sourceList !! index (source result) in
  let within :=
    (index dest ≤ drop_room (source result) dest sourceList destList)%nat ∧
    (Z.of_nat (index dest) < 2 ^ 32 - 1)%Z in
  (within →
     ∃ cache,
       handleDragEnd (Some board) result
       = MoveCard cache (from_option vc_id "undefined" movedCard) (droppableId dest)
                  (index_key (index dest)) ∧
       isNumeric (index_key (index dest)) = true ∧
       (index_key (index dest) == inject_Z (Z.of_nat (S (index dest))) * STEP)%Q) ∧
  (¬ within → ∃ cache, handleDragEnd (Some board) result = Threw (Some cache)).
Proof.
  intros Hd Hmoved Ht Hs Hdst. simpl.
  rewrite (handleDragEnd_card board result dest sourceList destList Hd Hmoved Ht Hs Hdst).
  rewrite js_nth_cards_after_drag. split; intros Hw.
  - rewrite bool_decide_eq_true_2 by done.
    rewrite vc_id_with_position, vc_position_with_position.
    eexists. split; [reflexivity|]. split; [|apply index_key_step].
    apply isNumeric_index_key. by destruct Hw.
  - rewrite bool_decide_eq_false_2 by done. by eexists.
Qed.

Lemma drag_card_request_witness :
  (∃ cache, handleDragEnd (Some Demo.view0) Demo.dropC = MoveCard cache "C" "L" 1000%Q) ∧
  (∃ cache,
     handleDragEnd (Some Demo.view0)
       (mkDropResult (Some (mkLocation "L2" 0)) (mkLocation "L" 7) "card")
     = MoveCard cache "undefined" "L2" 1000%Q) ∧
  (∃ cache,
     handleDragEnd (Some Demo.view0)
       (mkDropResult (Some (mkLocation "L" 2)) (mkLocation "L" 0) "card")
     = Threw (Some cache)).
Proof.
  split_and!.
  - destruct (drag_card_request Demo.view0 Demo.dropC (mkLocation "L" 0)
                (mkListView "L" "Todo" 1000%Q [Full Demo.cardA; Full Demo.cardC])
                (mkListView "L" "Todo" 1000%Q [Full Demo.cardA; Full Demo.cardC]))
      as [Hin _]; [reflexivity | by intros [_ [=]] | discriminate | reflexivity..|].
    destruct Hin as (cache & Hreq & _); [split; vm_compute; [lia|reflexivity]|]. by exists cache.
  - destruct (drag_card_request Demo.view0
                (mkDropResult (Some (mkLocation "L2" 0)) (mkLocation "L" 7) "card")
                (mkLocation "L2" 0)
                (mkListView "L" "Todo" 1000%Q [Full Demo.cardA; Full Demo.cardC])
                (mkListView "L2" "Doing" 2000%Q []))
      as [Hin _]; [reflexivity | by intros [[=] _] | discriminate | reflexivity..|].
    destruct Hin as (cache & Hreq & _); [split; vm_compute; [lia|reflexivity]|]. by exists cache.
  - destruct (drag_card_request Demo.view0
                (mkDropResult (Some (mkLocation "L" 2)) (mkLocation "L" 0) "card")
                (mkLocation "L" 2)
                (mkListView "L" "Todo" 1000%Q [Full Demo.cardA; Full Demo.cardC])
                (mkListView "L" "Todo" 1000%Q [Full Demo.cardA; Full Demo.cardC]))
      as [_ Hout]; [reflexivity | by intros [_ [=]] | discriminate | reflexivity..|].
    apply Hout. intros [Hle _]. vm_compute in Hle. lia.
Defined.

(** The view the page writes into its cache in a card drag, whether it then
    asks for the move or stops with a TypeError.  It has the same lists,
    with their ids, titles and positions.  The destination array holds the
    dragged card at the drop index (at its end when the index is past it)
    and the destination's other cards in their order; the source array
    holds the source's cards without the dragged one, in their order (in a
    move within one list, source and destination are the same array).  In
    the lists touched, the card at 0-based index [i] is shown with key
    [(i + 1) * 1000] and else as it was; where the source index addressed
    no card, the place of the dragged card is taken by an object that has
    that key and nothing else, no id either.  Every other list is shown as
    it was. *)
Theorem drag_card_view (board : BoardView) (result : DropResult) (dest : Location)
    (sourceList destList : ListView) :
  destination result = Some dest →
  ¬ (droppableId dest = droppableId (source result) ∧ index dest = index (source result)) →
  type result ≠ "list" →
  find_list (bv_lists board) (droppableId (source result)) = Some sourceList →
  find_list (bv_lists board) (droppableId dest) = Some destList →
  let src := source result in
  let movedCard := lv_cards sourceList !! index src in
  let room := drop_room src dest sourceList destList in
  ∃ cache newSource newDest,
    (handleDragEnd (Some board) result = Threw (Some cache) ∨
     ∃ cardId listId position,
       handleDragEnd (Some board) result = MoveCard cache cardId listId position) ∧
    newDest !! (index dest `min` room) = Some movedCard ∧
    delete (index dest `min` room) newDest
      = (if bool_decide (droppableId src = droppableId dest)
         then Some <$> delete (index src) (lv_cards sourceList)
         else Some <$> lv_cards destList) ∧
    newSource
      = (if bool_decide (droppableId src = droppableId dest)
         then newDest
         else Some <$> delete (index src) (lv_cards sourceList)) ∧
    ∀ (k : nat) l, bv_lists board !! k = Some l →
      ∃ l', cache !! k = Some l' ∧
        lv_id l' = lv_id l ∧ lv_title l' = lv_title l ∧ lv_position l' = lv_position l ∧
        (lv_id l = droppableId src →
           ∀ (i : nat) v, lv_cards l' !! i = Some v ↔
             ∃ x, newSource !! i = Some x ∧ v = with_position x (index_key i)) ∧
        (lv_id l ≠ droppableId src → lv_id l = droppableId dest →
           ∀ (i : nat) v, lv_cards l' !! i = Some v ↔
             ∃ x, newDest !! i = Some x ∧ v = with_position x (index_key i)) ∧
        (lv_id l ≠ droppableId src → lv_id l ≠ droppableId dest → l' = l).
Proof.
  intros Hd Hmoved Ht Hs Hdst. simpl.
  pose proof (handleDragEnd_card board result dest sourceList destList Hd Hmoved Ht Hs Hdst)
    as Hdrag. simpl in Hdrag.
  set (movedCard := lv_cards sourceList !! index (source result)) in *.
  set (after := cards_after_drag (source result) dest sourceList destList movedCard) in *.
  eexists _, after.1, after.2. split.
  { rewrite Hdrag. destruct (js_nth _ _); [right; by eexists _, _, _|by left]. }
  assert (after.2 !! (index dest `min` drop_room (source result) dest sourceList destList)
            = Some movedCard ∧
          delete (index dest `min` drop_room (source result) dest sourceList destList) after.2
            = (if bool_decide (droppableId (source result) = droppableId dest)
               then Some <$> delete (index (source result)) (lv_cards sourceList)
               else Some <$> lv_cards destList) ∧
          after.1 = (if bool_decide (droppableId (source result) = droppableId dest)
                     then after.2
                     else Some <$> delete (index (source result)) (lv_cards sourceList)))
    as (Hat & Hdel & Hsrc').
  { destruct (length_cards_after_drag (source result) dest sourceList destList movedCard)
      as [E <-]. fold after in E. rewrite E. split; [apply splice_in_lookup|].
    split; [apply splice_in_delete|]. rewrite <- E.
    unfold after, cards_after_drag. by case_bool_decide. }
  do 3 (split; [done|]).
  intros k l Hk. rewrite list_lookup_fmap, Hk. simpl. eexists. split; [reflexivity|].
  destruct (decide (lv_id l = droppableId (source result))) as [Hl1|Hl1].
  { rewrite (bool_decide_eq_true_2 _ Hl1). simpl. split_and!; try done.
    intros _ i v. apply renumber_lookup_iff. }
  rewrite (bool_decide_eq_false_2 _ Hl1).
  destruct (decide (lv_id l = droppableId dest)) as [Hl2|Hl2].
  { rewrite (bool_decide_eq_true_2 _ Hl2). simpl. split_and!; try done.
    intros _ _ i v. apply renumber_lookup_iff. }
  rewrite (bool_decide_eq_false_2 _ Hl2). split_and!; done.
Qed.

Lemma drag_card_view_witness :
  ∃ cache newSource newDest,
    (handleDragEnd (Some Demo.view0) Demo.dropC = Threw (Some cache) ∨
     ∃ cardId listId position,
       handleDragEnd (Some Demo.view0) Demo.dropC = MoveCard cache cardId listId position) ∧
    newDest !! 0%nat = Some (Some (Full Demo.cardC)) ∧
    delete 0%nat newDest = [Some (Full Demo.cardA)] ∧
    newSource = newDest.
Proof.
  destruct (drag_card_view Demo.view0 Demo.dropC (mkLocation "L" 0)
              (mkListView "L" "Todo" 1000%Q [Full Demo.cardA; Full Demo.cardC])
              (mkListView "L" "Todo" 1000%Q [Full Demo.cardA; Full Demo.cardC]))
    as (cache & ns & nd & H1 & H2 & H3 & H4 & _);
    [reflexivity | by intros [_ [=]] | discriminate | reflexivity..|].
  exists cache, ns, nd. split_and!; assumption.
Defined.

(** A card drag, end to end.  With the database reachable and access to
    the card and to the destination list, the move is answered 200, nothing
    is delivered on the sockets, and exactly one row changes: the dragged
    card's, which gets the destination list and the index key of the drop
    index.  Every other card keeps the row it had, whatever key the page now
    shows for it; lists and rooms are as they were. *)
Theorem drag_card_persists_one_row (sock : Socket) (board : BoardView)
    (result : DropResult) (srv : Server)
    (cache : list ListView) (cardId listId : string) (position : Q)
    (c : Card) (l tl : BList) :
  handleDragEnd (Some board) result = MoveCard cache cardId listId position →
  db_up (srv_db srv) = true →
  card_access (srv_db srv) (user_id (sock_user sock)) cardId = Some (c, l) →
  list_access (srv_db srv) (user_id (sock_user sock)) listId = Some tl →
  ∃ srv' dest,
    destination result = Some dest ∧
    let c' := mkCard (card_id c) (card_title c) (droppableId dest) (index_key (index dest)) in
    drag sock board result srv = (srv', [Json 200 (PCard c')], []) ∧
    db_cards (srv_db srv') !! cardId = Some c' ∧
    (∀ id, id ≠ cardId → db_cards (srv_db srv') !! id = db_cards (srv_db srv) !! id) ∧
    db_lists (srv_db srv') = db_lists (srv_db srv) ∧
    srv_rooms srv' = srv_rooms srv.
Proof.
  intros Hdrag Hup Hc Hl.
  destruct (handleDragEnd_key _ _ _ _ _ _ Hdrag) as (dest & Hd & -> & -> & Hidx).
  eexists _, dest. split; [done|]. simpl. unfold drag. rewrite Hdrag. simpl.
  rewrite (put_card_move_run _ _ (mkMoveBody _ _) _ c l tl Hup
             (isNumeric_index_key _ Hidx) Hc Hl). simpl.
  split; [reflexivity|]. simpl. split_and!; try done.
  - by rewrite lookup_insert_eq.
  - intros id Hne. by rewrite lookup_insert_ne.
Qed.

Lemma drag_card_persists_one_row_witness :
  ∃ srv' dest,
    destination Demo.dropC = Some dest ∧
    let c' := mkCard "C" "Card C" (droppableId dest) (index_key (index dest)) in
    drag Demo.sock2 Demo.view0 Demo.dropC Demo.srv0 = (srv', [Json 200 (PCard c')], []) ∧
    db_cards (srv_db srv') !! "C" = Some c' ∧
    (∀ id, id ≠ "C" → db_cards (srv_db srv') !! id = db_cards (srv_db Demo.srv0) !! id) ∧
    db_lists (srv_db srv') = db_lists (srv_db Demo.srv0) ∧
    srv_rooms srv' = srv_rooms Demo.srv0.
Proof.
  apply (drag_card_persists_one_row Demo.sock2 Demo.view0 Demo.dropC Demo.srv0
           [mkListView "L" "Todo" 1000%Q
              [Full (mkCard "C" "Card C" "L" 1000%Q); Full (mkCard "A" "Card A" "L" 2000%Q)];
            mkListView "L2" "Doing" 2000%Q []] "C" "L" 1000%Q
           Demo.cardC (mkBList "L" "Todo" "B" 1000%Q) (mkBList "L" "Todo" "B" 1000%Q));
    [vm_compute; reflexivity | reflexivity | reflexivity | reflexivity].
Defined.

(** The move takes no notice of the cards already in the destination: if
    another card of the destination list is stored with the index key of
    the drop index (as the card standing there is, in a list whose stored
    keys are 1000, 2000, ...), then after an accepted card drag that card and
    the dragged card have the same key, and the keys of the list are not
    pairwise different. *)
Theorem drag_card_ties_with_card_at_drop_index (sock : Socket) (board : BoardView)
    (result : DropResult) (srv : Server)
    (cache : list ListView) (cardId listId : string) (position : Q)
    (dest : Location) (c : Card) (l tl : BList) (otherId : string) (other : Card) :
  handleDragEnd (Some board) result = MoveCard cache cardId listId position →
  destination result = Some dest →
  db_up (srv_db srv) = true →
  card_access (srv_db srv) (user_id (sock_user sock)) cardId = Some (c, l) →
  list_access (srv_db srv) (user_id (sock_user sock)) listId = Some tl →
  otherId ≠ cardId →
  db_cards (srv_db srv) !! otherId = Some other →
  card_listId other = listId →
  (card_position other == index_key (index dest))%Q →
  let d' := srv_db (drag sock board result srv).1.1 in
  (∃ moved, db_cards d' !! cardId = Some moved ∧ card_listId moved = listId ∧
            db_cards d' !! otherId = Some other ∧
            (card_position moved == card_position other)%Q) ∧
  ¬ distinct_card_keys d' listId.
Proof.
  intros Hdrag Hd Hup Hc Hl Hne Hother Hlist Hkey.
  destruct (handleDragEnd_key _ _ _ _ _ _ Hdrag) as (dest' & Hd' & -> & -> & Hidx).
  assert (dest' = dest) as -> by congruence.
  unfold drag. rewrite Hdrag. simpl.
  rewrite (put_card_move_run _ _ (mkMoveBody _ _) _ c l tl Hup
             (isNumeric_index_key _ Hidx) Hc Hl). simpl.
  assert (<[cardId := mkCard (card_id c) (card_title c) (droppableId dest)
                             (index_key (index dest))]> (db_cards (srv_db srv)) !! otherId
          = Some other) as Ho by (by rewrite lookup_insert_ne).
  split.
  - eexists. split; [by rewrite lookup_insert_eq|]. split; [done|]. split; [done|].
    simpl. by symmetry.
  - intros Hdist.
    apply (Hdist cardId otherId
             (mkCard (card_id c) (card_title c) (droppableId dest) (index_key (index dest)))
             other); simpl; [done | by rewrite lookup_insert_eq | done | done | done |].
    by symmetry.
Qed.

Lemma drag_card_ties_with_card_at_drop_index_witness :
  ¬ distinct_card_keys (srv_db (drag Demo.sock2 Demo.view0 Demo.dropC Demo.srv0).1.1) "L".
Proof.
  apply (drag_card_ties_with_card_at_drop_index Demo.sock2 Demo.view0 Demo.dropC Demo.srv0
           [mkListView "L" "Todo" 1000%Q
              [Full (mkCard "C" "Card C" "L" 1000%Q); Full (mkCard "A" "Card A" "L" 2000%Q)];
            mkListView "L2" "Doing" 2000%Q []] "C" "L" 1000%Q
           (mkLocation "L" 0) Demo.cardC (mkBList "L" "Todo" "B" 1000%Q)
           (mkBList "L" "Todo" "B" 1000%Q) "A" Demo.cardA);
    [vm_compute; reflexivity | reflexivity | reflexivity | reflexivity | reflexivity
     | discriminate | reflexivity | reflexivity | reflexivity].
Defined.

(** A drag from a source index that addresses no card, end to end: Bob's
    view shows list L with two cards; a drag from index 7 to the front of
    L2 makes the page send PUT /cards/undefined/move, which the server
    answers 404; nothing is stored. *)
Example drag_stale_source_index :
  drag Demo.sock2 Demo.view0
    (mkDropResult (Some (mkLocation "L2" 0)) (mkLocation "L" 7) "card") Demo.srv0
  = (Demo.srv0,
     [Json 404 (PError "Card or target list not found or insufficient permissions")], []).
Proof. vm_compute. reflexivity. Qed.

(** ** Repeating a request *)

Lemma list_access_tables (d d' : Db) (uid lid : string) :
  db_lists d' = db_lists d → db_boards d' = db_boards d →
  list_access d' uid lid = list_access d uid lid.
Proof. unfold list_access, board_access. by intros -> ->. Qed.

(** The last move wins.  After an accepted move of a card, a second move of
    the same card by the same user to a list the user can reach, with a
    position the validator accepts (as the first one's is), is accepted
    as well, and the cards table is then exactly what the second move alone
    would have made of it: nothing of the first move is left but its entry
    in the activity log. *)
Theorem move_last_write_wins (uid cid : string) (b1 b2 : MoveBody) (d : Db)
    (c : Card) (l tl1 tl2 : BList) :
  db_up d = true →
  isNumeric (mb_position b1) = true →
  isNumeric (mb_position b2) = true →
  card_access d uid cid = Some (c, l) →
  list_access d uid (mb_listId b1) = Some tl1 →
  list_access d uid (mb_listId b2) = Some tl2 →
  let d1 := (put_card_move uid cid b1 d).1 in
  let c2 := mkCard (card_id c) (card_title c) (mb_listId b2) (mb_position b2) in
  answer (put_card_move uid cid b2 d1) = Some (Json 200 (PCard c2)) ∧
  db_cards (put_card_move uid cid b2 d1).1 = <[cid := c2]> (db_cards d) ∧
  db_cards (put_card_move uid cid b2 d1).1 = db_cards (put_card_move uid cid b2 d).1.
Proof.
  intros Hup Hn1 Hn2 Hc Hl1 Hl2. simpl.
  rewrite (put_card_move_run uid cid b1 d c l tl1 Hup Hn1 Hc Hl1). simpl.
  set (c1 := mkCard (card_id c) (card_title c) (mb_listId b1) (mb_position b1)).
  set (d1 := set_activities _ _).
  assert (card_access d1 uid cid = Some (c1, tl1)) as Hc1.
  { unfold card_access. simpl. rewrite lookup_insert_eq. simpl.
    by rewrite (list_access_tables d d1), Hl1. }
  assert (list_access d1 uid (mb_listId b2) = Some tl2) as Hl2'
    by (by rewrite (list_access_tables d d1)).
  rewrite (put_card_move_run uid cid b2 d1 c1 tl1 tl2 Hup Hn2 Hc1 Hl2').
  rewrite (put_card_move_run uid cid b2 d c l tl2 Hup Hn2 Hc Hl2).
  unfold answer. simpl. split; [done|]. by rewrite insert_insert_eq.
Qed.

Lemma move_last_write_wins_witness :
  let d1 := (put_card_move "u1" "C" (mkMoveBody "L2" 1000%Q) Demo.db0).1 in
  answer (put_card_move "u1" "C" (mkMoveBody "L" 500%Q) d1)
    = Some (Json 200 (PCard (mkCard "C" "Card C" "L" 500%Q))) ∧
  db_cards (put_card_move "u1" "C" (mkMoveBody "L" 500%Q) d1).1
    = <["C" := mkCard "C" "Card C" "L" 500%Q]> (db_cards Demo.db0).
Proof.
  destruct (move_last_write_wins "u1" "C" (mkMoveBody "L2" 1000%Q) (mkMoveBody "L" 500%Q)
              Demo.db0 Demo.cardC (mkBList "L" "Todo" "B" 1000%Q)
              (mkBList "L2" "Doing" "B" 2000%Q) (mkBList "L" "Todo" "B" 1000%Q))
    as (Ha & Hc & _); [reflexivity..|].
  split; [exact Ha | exact Hc].
Defined.

Lemma validatePaginationParams_bounds_witness :
  let p := validatePaginationParams (mkPaginationQuery (JFin 0) JNaN (Some "") (Some "ASC")) in
  page p = JFin 1 ∧ limit p = JFin 10 ∧ sortBy p ≠ "" ∧
  (sortOrder p = "asc" ∨ sortOrder p = "desc").
Proof.
  destruct (validatePaginationParams_bounds
              (mkPaginationQuery (JFin 0) JNaN (Some "") (Some "ASC")))
    as (_ & _ & Hso & Hsb & _ & Hp & Hl).
  split; [apply Hp; by right|]. split; [apply Hl; by left|]. split; [exact Hsb | exact Hso].
Defined.
